(** * Wafer-map ingestion and ROI report: a shallow embedding

    The development follows two source files.

    - [src/utils/data_loader.py], function [load_wafer_dataset]: the
      archive is opened, every record goes through field extraction,
      coercion of the wafer map, normalisation of the failure type and the
      taxonomy lookup, and the accepted samples are summarised.
    - [business/roi_calculator.py], class [ROICalculator]: the loaded
      configuration is deep-copied, merged with the user's overrides,
      validated and turned into a savings report.

    Python objects are values of [PyVal]; a raised exception is the
    [Raise] case of [Exc]; the loop of the loader threads its four
    accumulators through a state-and-exception monad; the dictionaries of
    the calculator live in a store of mutable objects addressed by
    location, so that aliasing between the configuration and its copy is
    visible. *)

From Stdlib Require Import ZArith QArith String Ascii List Bool Lia Lqa Sorted.
From stdpp Require Import base list.
Import ListNotations.

Local Open Scope Z_scope.
Local Open Scope string_scope.
Local Open Scope list_scope.

(** ** Exceptions *)

(** The subclasses of Python's [Exception] that the two files raise or
    meet.  Signals outside that class ([KeyboardInterrupt], [SystemExit])
    are delivered to the process from outside and are not values of this
    type. *)
Inductive exn : Type :=
  | FileNotFoundError
  | ValueError
  | AttributeError
  | TypeError
  | IndexError
  | KeyError
  | ZeroDivisionError
  | OtherException (name : string).

Inductive Exc (A : Type) : Type :=
  | Ok (a : A)
  | Raise (e : exn).

Arguments Ok {A} a.
Arguments Raise {A} e.

Definition exc_bind {A B : Type} (c : Exc A) (k : A -> Exc B) : Exc B :=
  match c with
  | Ok a => k a
  | Raise e => Raise e
  end.

Declare Scope exc_scope.
Delimit Scope exc_scope with exc.
Notation "'let!' x ':=' c 'in' k" := (exc_bind c (fun x => k))
  (at level 10, x name, c at level 200, k at level 200) : exc_scope.

Fixpoint exc_map {A B : Type} (f : A -> Exc B) (l : list A) : Exc (list B) :=
  match l with
  | [] => Ok []
  | x :: l' =>
      (let! y := f x in
       let! ys := exc_map f l' in
       Ok (y :: ys))%exc
  end.

(** ** Python values *)

#[local] Set Warnings "-register-all".

(** [VNdarray shape flat] is a numpy array: [flat] holds its elements in
    iteration order, so [size] is the length of [flat] and [ndim] the
    length of [shape]. *)
Inductive PyVal : Type :=
  | VNone
  | VInt (z : Z)
  | VStr (s : string)
  | VList (items : list PyVal)
  | VNdarray (shape : list nat) (flat : list PyVal)
  | VOther (type_name : string).

Record NdArray : Type := mkNdArray {
  shape : list nat;
  flat : list PyVal
}.

Definition ndim (a : NdArray) : Z := Z.of_nat (length (shape a)).

Definition is_None (v : PyVal) : bool :=
  match v with VNone => true | _ => false end.

(** ** Strings: [str.strip] *)

(** A character is a code point below 256 (the archive is unpickled with
    [encoding="latin1"]); [py_isspace] lists the code points for which
    [str.isspace] holds in that range. *)
Definition py_isspace (c : ascii) : bool :=
  let n := nat_of_ascii c in
  ((9 <=? n)%nat && (n <=? 13)%nat)
  || ((28 <=? n)%nat && (n <=? 32)%nat)
  || (n =? 133)%nat
  || (n =? 160)%nat.

Fixpoint lstrip (s : string) : string :=
  match s with
  | EmptyString => EmptyString
  | String c s' => if py_isspace c then lstrip s' else s
  end.

Fixpoint rstrip (s : string) : string :=
  match s with
  | EmptyString => EmptyString
  | String c s' =>
      match rstrip s' with
      | EmptyString => if py_isspace c then EmptyString else String c EmptyString
      | r => String c r
      end
  end.

Definition strip (s : string) : string := rstrip (lstrip s).

(** ** Dictionaries with string keys, in insertion order *)

Fixpoint assoc {V : Type} (key : string) (items : list (string * V)) : option V :=
  match items with
  | [] => None
  | (k, v) :: rest => if String.eqb key k then Some v else assoc key rest
  end.

(** [d.get(key, default)] *)
Definition dict_get {V : Type} (items : list (string * V)) (key : string) (default : V) : V :=
  match assoc key items with
  | Some v => v
  | None => default
  end.

(** ** The class taxonomy (data_loader.py, lines 39-49) *)

Definition class_map : list (string * Z) :=
  [ ("none", 0); ("Center", 1); ("Donut", 2); ("Edge-Loc", 3);
    ("Edge-Ring", 4); ("Loc", 5); ("Near-full", 6); ("Random", 7);
    ("Scratch", 8) ].

(** ** Records of the archive *)

(** The three shapes the loop tells apart: a tuple (a named tuple of
    [DataFrame.itertuples] carries its fields as attributes, a plain
    tuple carries none), a [dict], and any other object with its
    attributes. *)
Inductive Record : Type :=
  | RTuple (fields : list (string * PyVal))
  | RDict (items : list (string * PyVal))
  | RObject (attrs : list (string * PyVal)).

Definition hasattr (attrs : list (string * PyVal)) (name : string) : bool :=
  match assoc name attrs with Some _ => true | None => false end.

(** [record.name] *)
Definition getattr (attrs : list (string * PyVal)) (name : string) : Exc PyVal :=
  match assoc name attrs with
  | Some v => Ok v
  | None => Raise AttributeError
  end.

(** [getattr(record, name, default)] *)
Definition getattr_default (attrs : list (string * PyVal)) (name : string)
    (default : PyVal) : PyVal :=
  dict_get attrs name default.

Record Fields : Type := mkFields {
  f_wafer_map : PyVal;
  f_failure_type : PyVal;
  f_lot_name : PyVal;
  f_wafer_index : PyVal
}.

(** Lines 67-81. *)
Definition extract_fields (record : Record) : Exc Fields :=
  match record with
  | RTuple fields =>
      if hasattr fields "waferMap" then
        (let! wafer_map := getattr fields "waferMap" in
         let! failure_type := getattr fields "failureType" in
         Ok (mkFields wafer_map failure_type
               (getattr_default fields "lotName" (VStr ""))
               (getattr_default fields "waferIndex" (VInt 0))))%exc
      else
        Ok (mkFields (getattr_default fields "waferMap" VNone)
              (getattr_default fields "failureType" VNone)
              (getattr_default fields "lotName" (VStr ""))
              (getattr_default fields "waferIndex" (VInt 0)))
  | RDict items =>
      Ok (mkFields (dict_get items "waferMap" VNone)
            (dict_get items "failureType" VNone)
            (dict_get items "lotName" (VStr ""))
            (dict_get items "waferIndex" (VInt 0)))
  | RObject attrs =>
      Ok (mkFields (getattr_default attrs "waferMap" VNone)
            (getattr_default attrs "failureType" VNone)
            (getattr_default attrs "lotName" (VStr ""))
            (getattr_default attrs "waferIndex" (VInt 0)))
  end.

(** ** Accumulators of the loop *)

Record MetaRow : Type := mkMetaRow {
  lotName : PyVal;
  waferIndex : PyVal;
  failureType : string;
  mapped_label : Z
}.

Record State : Type := mkState {
  images : list NdArray;
  labels : list Z;
  metadata_rows : list MetaRow;
  skipped_count : Z
}.

Definition init_state : State := mkState [] [] [] 0.

(** A statement of the loop body: it runs on the accumulators and
    yields them, as they are when it ends, with a value or an exception. *)
Definition Stmt (A : Type) : Type := State -> State * Exc A.

Definition st_bind {A B : Type} (c : Stmt A) (k : A -> Stmt B) : Stmt B :=
  fun st =>
    match c st with
    | (st', Ok a) => k a st'
    | (st', Raise e) => (st', Raise e)
    end.

Definition st_lift {A : Type} (c : Exc A) : Stmt A := fun st => (st, c).

Declare Scope stmt_scope.
Delimit Scope stmt_scope with stmt.
Notation "'let!' x ':=' c 'in' k" := (st_bind c (fun x => k))
  (at level 10, x name, c at level 200, k at level 200) : stmt_scope.
Notation "c ;; k" := (st_bind c (fun _ => k))
  (at level 100, k at level 200, right associativity) : stmt_scope.

(** [skipped_count += 1] *)
Definition incr_skipped : Stmt unit :=
  fun st => (mkState (images st) (labels st) (metadata_rows st) (skipped_count st + 1), Ok tt).

(** [images.append(wafer_map)] *)
Definition append_image (wafer_map : NdArray) : Stmt unit :=
  fun st => (mkState (images st ++ [wafer_map]) (labels st) (metadata_rows st) (skipped_count st), Ok tt).

(** [labels.append(label_idx)] *)
Definition append_label (label_idx : Z) : Stmt unit :=
  fun st => (mkState (images st) (labels st ++ [label_idx]) (metadata_rows st) (skipped_count st), Ok tt).

(** [metadata_rows.append(row)] *)
Definition append_row (row : MetaRow) : Stmt unit :=
  fun st => (mkState (images st) (labels st) (metadata_rows st ++ [row]) (skipped_count st), Ok tt).

Section Loader.

(** The two library calls of the loop body whose result depends on
    numpy and on the classes of the elements: [np.array(x)] and
    [str(x)].  Either may raise. *)
Variable np_array : PyVal -> Exc NdArray.
Variable py_str : PyVal -> Exc string.

(** Lines 96-115: the unstripped label, or [None] where the loop takes
    its last [else] branch. *)
Definition normalize_failure_type (failure_type : PyVal) : Exc (option string) :=
  match failure_type with
  | VNdarray _ elems =>
      match elems with
      | [] => Ok (Some "none")
      | item :: _ => (let! s := py_str item in Ok (Some s))%exc
      end
  | VList elems =>
      match elems with
      | [] => Ok (Some "none")
      | item :: _ =>
          match item with
          | VList (inner :: _) => (let! s := py_str inner in Ok (Some s))%exc
          | _ => (let! s := py_str item in Ok (Some s))%exc
          end
      end
  | VStr s => Ok (Some s)
  | _ => Ok None
  end.

(** Lines 96-117: the label as it is looked up in [class_map]. *)
Definition stripped_label (failure_type : PyVal) : Exc (option string) :=
  (let! l := normalize_failure_type failure_type in
   Ok (option_map strip l))%exc.

(** Lines 66-135, the body of the [try]. *)
Definition record_body (record : Record) : Stmt unit :=
  (let! fields := st_lift (extract_fields record) in
   if is_None (f_wafer_map fields) || is_None (f_failure_type fields) then
     incr_skipped
   else
     let! wafer_map := st_lift (np_array (f_wafer_map fields)) in
     if negb (ndim wafer_map =? 2)%Z then
       incr_skipped
     else
       let! f_label := st_lift (stripped_label (f_failure_type fields)) in
       match f_label with
       | None => incr_skipped
       | Some f_label =>
           match assoc f_label class_map with
           | None => incr_skipped
           | Some label_idx =>
               append_image wafer_map ;;
               append_label label_idx ;;
               append_row (mkMetaRow (f_lot_name fields) (f_wafer_index fields)
                             f_label label_idx)
           end
       end)%stmt.

(** Lines 65-139: [try: body except Exception: skipped_count += 1]. *)
Definition process_record (st : State) (record : Record) : State :=
  match record_body record st with
  | (st', Ok _) => st'
  | (st', Raise _) => fst (incr_skipped st')
  end.

(** Lines 64-139: the [for] loop. *)
Definition process_records (st : State) (records : list Record) : State :=
  fold_left process_record records st.

End Loader.

(** ** Summary statistics (data_loader.py, lines 141-182) *)

(** [min(l)] and [max(l)] raise [ValueError] on an empty list. *)
Definition py_min (l : list Z) : Exc Z :=
  match l with
  | [] => Raise ValueError
  | x :: l' => Ok (fold_left Z.min l' x)
  end.

Definition py_max (l : list Z) : Exc Z :=
  match l with
  | [] => Raise ValueError
  | x :: l' => Ok (fold_left Z.max l' x)
  end.

(** [img.shape[i]] *)
Definition shape_at (img : NdArray) (i : nat) : Exc Z :=
  match shape img !! i with
  | Some n => Ok (Z.of_nat n)
  | None => Raise IndexError
  end.

(** [a / b] on integers: true division, here with an exact quotient
    where Python rounds to a float. *)
Definition truediv (a b : Z) : Exc Q :=
  if (b =? 0)%Z then Raise ZeroDivisionError
  else Ok (inject_Z a / inject_Z b)%Q.

(** Line 176.  The percentage is exact here; the code computes a float
    and prints it with two decimals. *)
Definition pct (count valid_count : Z) : Exc Q :=
  if (valid_count >? 0)%Z then
    (let! q := truediv count valid_count in Ok (q * inject_Z 100)%Q)%exc
  else Ok (inject_Z 0).

(** [Counter(labels)]: one entry per distinct label, in order of first
    occurrence. *)
Fixpoint counter_incr (x : Z) (c : list (Z * Z)) : list (Z * Z) :=
  match c with
  | [] => [(x, 1)]
  | (k, n) :: c' =>
      if (x =? k)%Z then (k, n + 1) :: c' else (k, n) :: counter_incr x c'
  end.

Definition Counter (l : list Z) : list (Z * Z) :=
  fold_left (fun c x => counter_incr x c) l [].

(** [sorted(l)], by insertion. *)
Fixpoint insert_by {A : Type} (leb : A -> A -> bool) (x : A) (l : list A) : list A :=
  match l with
  | [] => [x]
  | y :: l' => if leb x y then x :: l else y :: insert_by leb x l'
  end.

Definition sorted_by {A : Type} (leb : A -> A -> bool) (l : list A) : list A :=
  fold_right (insert_by leb) [] l.

(** Order of the pairs [(label, count)]: tuples compare field by field. *)
Definition pair_leb (a b : Z * Z) : bool :=
  (fst a <? fst b)%Z || ((fst a =? fst b)%Z && (snd a <=? snd b)%Z).

(** [set(l)] as a list without repetition. *)
Fixpoint py_set (l : list Z) : list Z :=
  match l with
  | [] => []
  | x :: l' => if existsb (Z.eqb x) l' then py_set l' else x :: py_set l'
  end.

(** [inv_map.get(lbl, "Unknown")], with [inv_map] the inverse of [class_map]. *)
Definition inv_map_get (lbl : Z) : string :=
  match find (fun kv => (snd kv =? lbl)%Z) class_map with
  | Some kv => fst kv
  | None => "Unknown"
  end.

Definition expected_classes : list Z := [0; 1; 2; 3; 4; 5; 6; 7; 8].

Definition list_Z_eqb (a b : list Z) : bool :=
  bool_decide (a = b).

(** Lines 145-149: the classes named by the warning, or [None] when no
    warning is printed. *)
Definition missing_classes (labels : list Z) : option (list Z) :=
  let unique_labels := sorted_by Z.leb (py_set labels) in
  if list_Z_eqb unique_labels expected_classes then None
  else Some (List.filter (fun c => negb (existsb (Z.eqb c) unique_labels)) expected_classes).

Record ClassRow : Type := mkClassRow {
  cr_name : string;
  cr_lbl : Z;
  cr_count : Z;
  cr_pct : Q
}.

(** What the function prints after the loop. *)
Record Summary : Type := mkSummary {
  warning : option (list Z);
  valid_count : Z;
  skipped : Z;
  class_rows : list ClassRow;
  h_min : Z;
  h_max : Z;
  w_min : Z;
  w_max : Z
}.

(** Lines 155-161. *)
Definition dimension_extrema (images : list NdArray) : Exc (Z * Z * Z * Z) :=
  if (Z.of_nat (length images) >? 0)%Z then
    (let! heights := exc_map (fun img => shape_at img 0) images in
     let! widths := exc_map (fun img => shape_at img 1) images in
     let! hmin := py_min heights in
     let! hmax := py_max heights in
     let! wmin := py_min widths in
     let! wmax := py_max widths in
     Ok (hmin, hmax, wmin, wmax))%exc
  else Ok (0, 0, 0, 0).

(** Lines 174-177, one iteration. *)
Definition class_row (valid_count : Z) (item : Z * Z) : Exc ClassRow :=
  let '(lbl, count) := item in
  (let! p := pct count valid_count in
   Ok (mkClassRow (inv_map_get lbl) lbl count p))%exc.

(** Lines 141-182. *)
Definition summarize (st : State) : Exc Summary :=
  let warn := missing_classes (labels st) in
  let valid := Z.of_nat (length (images st)) in
  (let! ext := dimension_extrema (images st) in
   let '(hmin, hmax, wmin, wmax) := ext in
   let dist := Counter (labels st) in
   let! rows := exc_map (class_row valid) (sorted_by pair_leb dist) in
   Ok (mkSummary warn valid (skipped_count st) rows hmin hmax wmin wmax))%exc.

(** ** The whole function *)

Record Output : Type := mkOutput {
  out_images : list NdArray;
  out_labels : list Z;
  out_metadata : list MetaRow;
  out_summary : Summary
}.

Section LoadWaferDataset.

Variable np_array : PyVal -> Exc NdArray.
Variable py_str : PyVal -> Exc string.

(** The file system and the unpickler: [os.path.exists] and
    [open] followed by [pickle.load], which yields the records in
    iteration order or raises. *)
Variable path_exists : string -> bool.
Variable read_pickle : string -> Exc (list Record).

(** Lines 28-184. *)
Definition load_wafer_dataset (pkl_path : string) : Exc Output :=
  if negb (path_exists pkl_path) then Raise FileNotFoundError
  else
    match read_pickle pkl_path with
    | Raise _ => Raise ValueError
    | Ok data =>
        let st := process_records np_array py_str init_state data in
        (let! s := summarize st in
         Ok (mkOutput (images st) (labels st) (metadata_rows st) s))%exc
    end.

End LoadWaferDataset.

(** ** The two outcomes of one iteration *)

Definition skips (st : State) : State :=
  mkState (images st) (labels st) (metadata_rows st) (skipped_count st + 1).

Definition accepts (st : State) (img : NdArray) (lbl : Z) (row : MetaRow) : State :=
  mkState (images st ++ [img]) (labels st ++ [lbl]) (metadata_rows st ++ [row])
    (skipped_count st).


(** * The ROI calculator (business/roi_calculator.py) *)

(** ** The store of dictionaries *)

(** A value of the configuration is a number, a string, [None], or a
    reference to a dictionary of the store.  Numbers are exact
    rationals: Python's [int] and [float] are not told apart, and the
    rounding of floats, their overflow to [inf] and the [OverflowError]
    of a conversion are not part of the model.  What is proved about
    figures below is limited to what does not depend on them: which
    keys are read, which dictionary is written, and signs. *)
Inductive cval : Type :=
  | CNum (q : Q)
  | CStr (s : string)
  | CNone
  | CRef (l : nat).

(** A dictionary is the list of its items in insertion order; the store
    is the list of the dictionaries that exist, a location is an index.
    A new dictionary is appended. *)
Abbreviation dict := (list (string * cval)).
Abbreviation heap := (list (list (string * cval))).

(** Reading outside the store does not happen in Python; the model
    reports it with this exception. *)
Definition SystemError : exn := OtherException "SystemError".

(** [d[k] = v] *)
Fixpoint dict_set (k : string) (v : cval) (d : dict) : dict :=
  match d with
  | [] => [(k, v)]
  | (k', v') :: d' =>
      if String.eqb k k' then (k', v) :: d' else (k', v') :: dict_set k v d'
  end.

(** [d.update(items)] for the items of a dictionary. *)
Definition dict_update (d : dict) (items : dict) : dict :=
  fold_left (fun d kv => dict_set (fst kv) (snd kv) d) items d.

(** ** [copy.deepcopy] *)

(** The memo of [deepcopy]: the copy already made of an object. *)
Fixpoint memo_get (l : nat) (memo : list (nat * nat)) : option nat :=
  match memo with
  | [] => None
  | (l', y) :: memo' => if (l =? l')%nat then Some y else memo_get l memo'
  end.

(** [for key, value in x.items(): y[key] = deepcopy(value, memo)], with
    the copy of one value as a parameter. *)
Fixpoint copy_items
    (copy : heap -> list (nat * nat) -> cval -> option (heap * list (nat * nat) * cval))
    (h : heap) (memo : list (nat * nat)) (items : dict)
    : option (heap * list (nat * nat) * dict) :=
  match items with
  | [] => Some (h, memo, [])
  | (k, v) :: rest =>
      match copy h memo v with
      | None => None
      | Some (h1, memo1, v') =>
          match copy_items copy h1 memo1 rest with
          | None => None
          | Some (h2, memo2, rest') => Some (h2, memo2, (k, v') :: rest')
          end
      end
  end.

(** [deepcopy(v, memo)].  A scalar is its own copy.  For a dictionary
    not yet in the memo the new dictionary [y] is created empty and
    entered in the memo before its items are copied, as
    [copy._deepcopy_dict] does; no nested call reads [y], so the items
    are stored in [y] once they are all copied.  [fuel] bounds the depth
    of the traversal; [None] is an exhausted bound or a location outside
    the store. *)
Fixpoint deepcopy (fuel : nat) (h : heap) (memo : list (nat * nat)) (v : cval)
    : option (heap * list (nat * nat) * cval) :=
  match v with
  | CRef l =>
      match memo_get l memo with
      | Some y => Some (h, memo, CRef y)
      | None =>
          match fuel with
          | O => None
          | S fuel' =>
              match h !! l with
              | None => None
              | Some x =>
                  let y := length h in
                  match copy_items (deepcopy fuel') (h ++ [[]]) ((l, y) :: memo) x with
                  | None => None
                  | Some (h', memo', items) => Some (<[y := items]> h', memo', CRef y)
                  end
              end
          end
      end
  | _ => Some (h, memo, v)
  end.

(** ** The methods of [ROICalculator] *)

(** Lines 19-32, each key already split at the dot. *)
Definition required : list (string * string) :=
  [ ("factory", "wafers_per_day");
    ("factory", "operating_days_per_month");
    ("manual_inspection", "time_per_wafer_minutes");
    ("manual_inspection", "inspector_hourly_wage_inr");
    ("manual_inspection", "false_negative_rate");
    ("manual_inspection", "false_positive_rate");
    ("ai_performance", "false_negative_rate");
    ("ai_performance", "false_positive_rate");
    ("costs", "wafer_cost_inr");
    ("costs", "defective_wafer_downstream_cost_multiplier");
    ("costs", "system_development_cost_inr");
    ("costs", "monthly_compute_cost_inr") ].

(** The items of the dictionary a value refers to. *)
Definition items_of (h : heap) (l : nat) : Exc dict :=
  match h !! l with
  | Some d => Ok d
  | None => Raise SystemError
  end.

(** [d.get(key, {})], where the default is a new empty dictionary,
    returned here as its items. *)
Definition get_or_empty (h : heap) (d : dict) (key : string) : Exc dict :=
  match assoc key d with
  | None => Ok []
  | Some (CRef l) => items_of h l
  | Some _ => Raise AttributeError
  end.

(** [d[key]] on a value that should be a dictionary. *)
Definition getitem (h : heap) (d : cval) (key : string) : Exc cval :=
  match d with
  | CRef l =>
      (let! items := items_of h l in
       match assoc key items with
       | Some v => Ok v
       | None => Raise KeyError
       end)%exc
  | _ => Raise TypeError
  end.

(** A value used in arithmetic: the configuration holds numbers there. *)
Definition num (v : cval) : Exc Q :=
  match v with
  | CNum q => Ok q
  | _ => Raise TypeError
  end.

(** [max(0, x)] *)
Definition max0 (x : Q) : Q := if Qle_bool x (inject_Z 0) then inject_Z 0 else x.

(** Lines 17-42. *)
Definition validate_inputs (h : heap) (inputs : nat) : Exc unit :=
  (let! top := items_of h inputs in
   let! missing :=
     exc_map (fun key =>
                let! sec := get_or_empty h top (fst key) in
                Ok (match dict_get sec (snd key) CNone with
                    | CNone => [key]
                    | _ => []
                    end))
       required in
   match concat missing with
   | [] => Ok tt
   | _ :: _ => Raise ValueError
   end)%exc.

(** [f["wafers_per_day"] * f["operating_days_per_month"]] *)
Definition wafers_month (h : heap) (f : cval) : Exc Q :=
  (let! a := getitem h f "wafers_per_day" in
   let! a := num a in
   let! b := getitem h f "operating_days_per_month" in
   let! b := num b in
   Ok (a * b)%Q)%exc.

(** [x[key]] as a number. *)
Definition num_at (h : heap) (x : cval) (key : string) : Exc Q :=
  (let! v := getitem h x key in num v)%exc.

(** Lines 44-55. *)
Definition calculate_labor_savings (h : heap) (inputs : cval) : Exc Q :=
  (let! f := getitem h inputs "factory" in
   let! m := getitem h inputs "manual_inspection" in
   let! wm := wafers_month h f in
   let! t := num_at h m "time_per_wafer_minutes" in
   let hours_month := (wm * t / inject_Z 60)%Q in
   let! wage := num_at h m "inspector_hourly_wage_inr" in
   Ok (max0 (hours_month * wage)%Q))%exc.

(** Lines 57-78. *)
Definition calculate_quality_improvement (h : heap) (inputs : cval) : Exc Q :=
  (let! f := getitem h inputs "factory" in
   let! m := getitem h inputs "manual_inspection" in
   let! ai := getitem h inputs "ai_performance" in
   let! c := getitem h inputs "costs" in
   let! wm := wafers_month h f in
   let! mfn := num_at h m "false_negative_rate" in
   let! afn := num_at h ai "false_negative_rate" in
   let defects_caught := max0 (wm * mfn - wm * afn)%Q in
   let! cost := num_at h c "wafer_cost_inr" in
   let! mult := num_at h c "defective_wafer_downstream_cost_multiplier" in
   Ok (max0 (defects_caught * (cost * mult))%Q))%exc.

(** Lines 80-97. *)
Definition calculate_scrap_reduction (h : heap) (inputs : cval) : Exc Q :=
  (let! f := getitem h inputs "factory" in
   let! m := getitem h inputs "manual_inspection" in
   let! ai := getitem h inputs "ai_performance" in
   let! c := getitem h inputs "costs" in
   let! wm := wafers_month h f in
   let! mfp := num_at h m "false_positive_rate" in
   let! afp := num_at h ai "false_positive_rate" in
   let wafers_saved := max0 (wm * mfp - wm * afp)%Q in
   let! cost := num_at h c "wafer_cost_inr" in
   Ok (max0 (wafers_saved * cost)%Q))%exc.

(** Lines 104-106, one iteration: [if section in inputs:
    inputs[section].update(data)].  [data] is what the caller put in
    [user_overrides]: a dictionary of the store, or a value on which
    [dict.update] raises (the empty string, an empty iterable, leaves
    the target as it is). *)
Definition update_section (h : heap) (inputs : nat) (section : string) (data : cval)
    : heap * Exc unit :=
  match h !! inputs with
  | None => (h, Raise SystemError)
  | Some top =>
      match assoc section top with
      | None => (h, Ok tt)
      | Some (CRef ls) =>
          match h !! ls with
          | None => (h, Raise SystemError)
          | Some target =>
              match data with
              | CRef ld =>
                  match h !! ld with
                  | None => (h, Raise SystemError)
                  | Some items => (<[ls := dict_update target items]> h, Ok tt)
                  end
              | CStr EmptyString => (h, Ok tt)
              | CStr _ => (h, Raise ValueError)
              | _ => (h, Raise TypeError)
              end
          end
      | Some _ => (h, Raise AttributeError)
      end
  end.

(** Lines 104-106, the loop over [user_overrides.items()]; it stops at
    the first exception. *)
Fixpoint merge_overrides (h : heap) (inputs : nat) (overrides : list (string * cval))
    : heap * Exc unit :=
  match overrides with
  | [] => (h, Ok tt)
  | (section, data) :: rest =>
      match update_section h inputs section data with
      | (h', Ok _) => merge_overrides h' inputs rest
      | (h', Raise e) => (h', Raise e)
      end
  end.

(** What [generate_report] returns: the four rows of the data frame and
    the figures and formulas of the text.  [payback_months] is [None]
    where the code takes [float("inf")] in the [else] of line 120; an
    [inf] that the float division itself gives is not modelled. *)
Record Report : Type := mkReport {
  labor_savings : Q;
  quality_savings : Q;
  scrap_savings : Q;
  total_monthly : Q;
  payback_months : option Q;
  labor_formula : cval;
  quality_formula : cval;
  scrap_formula : cval
}.

(** Lines 111-156, on the merged and validated inputs. *)
Definition build_report (h : heap) (inputs : nat) : Exc Report :=
  (let! labor := calculate_labor_savings h (CRef inputs) in
   let! quality := calculate_quality_improvement h (CRef inputs) in
   let! scrap := calculate_scrap_reduction h (CRef inputs) in
   let total := (labor + quality + scrap)%Q in
   let! costs := getitem h (CRef inputs) "costs" in
   let! costs_items := match costs with
                       | CRef l => items_of h l
                       | _ => Raise AttributeError
                       end in
   let dev_cost := dict_get costs_items "system_development_cost_inr"
                     (CNum (inject_Z 0)) in
   let! payback := if Qle_bool total (inject_Z 0) then Ok None
                   else (let! d := num dev_cost in Ok (Some (d / total)%Q)) in
   let! top := items_of h inputs in
   let! formulas := get_or_empty h top "formulas" in
   Ok (mkReport labor quality scrap total payback
         (dict_get formulas "labor_cost_savings_formula" CNone)
         (dict_get formulas "quality_improvement_formula" CNone)
         (dict_get formulas "scrap_reduction_formula" CNone)))%exc.

(** Lines 103-106: [if user_overrides:] guards the loop, and is false
    for [None] and for an empty dictionary. *)
Definition merge_step (h1 : heap) (inputs : nat)
    (user_overrides : option (list (string * cval))) : heap * Exc unit :=
  match user_overrides with
  | None | Some [] => (h1, Ok tt)
  | Some overrides => merge_overrides h1 inputs overrides
  end.

(** Lines 99-156.  [config] is the location of [self.config]; the
    result is the store after the call and what the call returns or
    raises.  An exhausted traversal bound is reported as
    [RecursionError]. *)
Definition generate_report (h : heap) (config : nat)
    (user_overrides : option (list (string * cval))) : heap * Exc Report :=
  match deepcopy (S (length h)) h [] (CRef config) with
  | Some (h1, _, CRef inputs) =>
      let '(h2, merged) := merge_step h1 inputs user_overrides in
      match merged with
      | Raise e => (h2, Raise e)
      | Ok _ =>
          (h2, (let! _ := validate_inputs h2 inputs in build_report h2 inputs)%exc)
      end
  | _ => (h, Raise (OtherException "RecursionError"))
  end.
(** ** Sample interpretations of the library calls

    Used to run the definitions on concrete records.  [np_array_sample]
    covers arrays, lists of scalars and lists of equally long lists of
    scalars; [py_str_sample] covers strings, [None] and the empty list. *)

Definition is_scalar (v : PyVal) : bool :=
  match v with
  | VList _ | VNdarray _ _ => false
  | _ => true
  end.

Definition list_items (v : PyVal) : list PyVal :=
  match v with VList l => l | _ => [] end.

Definition is_row_of (n : nat) (v : PyVal) : bool :=
  match v with
  | VList l => (length l =? n)%nat && forallb is_scalar l
  | _ => false
  end.

Definition np_array_sample (v : PyVal) : Exc NdArray :=
  match v with
  | VNdarray sh fl => Ok (mkNdArray sh fl)
  | VList rows =>
      match rows with
      | VList first :: _ =>
          if forallb (is_row_of (length first)) rows
          then Ok (mkNdArray [length rows; length first] (concat (map list_items rows)))
          else Raise ValueError
      | _ =>
          if forallb is_scalar rows then Ok (mkNdArray [length rows] rows)
          else Raise ValueError
      end
  | _ => Ok (mkNdArray [] [v])
  end.

Definition py_str_sample (v : PyVal) : Exc string :=
  match v with
  | VStr s => Ok s
  | VNone => Ok "None"
  | VList [] => Ok "[]"
  | _ => Raise (OtherException "str")
  end.


(** A two-by-two wafer map, and one record of each kind the loop
    meets: accepted, unknown label, 1-dimensional map, empty label list
    on a named tuple, ragged map (on which [np_array_sample] raises), and
    an object without the two fields. *)
Definition sample_map : PyVal :=
  VList [VList [VInt 0; VInt 1]; VList [VInt 1; VInt 0]].

Definition record_center : Record :=
  RDict [("waferMap", sample_map); ("failureType", VStr "Center")].

Definition record_bogus : Record :=
  RDict [("waferMap", sample_map); ("failureType", VStr "Bogus")].

Definition record_flat_map : Record :=
  RDict [("waferMap", VList [VInt 0; VInt 1]); ("failureType", VStr "Loc")].

Definition record_empty_label : Record :=
  RTuple [("Index", VInt 3); ("waferMap", sample_map); ("failureType", VList [])].

Definition record_ragged_map : Record :=
  RDict [("waferMap", VList [VList [VInt 0; VInt 1]; VList [VInt 1]]);
         ("failureType", VStr "Donut")].

Definition record_no_fields : Record :=
  RObject [("lotName", VStr "lot1")].

Definition sample_archive : list Record :=
  [ record_center; record_bogus; record_flat_map; record_empty_label;
    record_ragged_map; record_no_fields ].

Definition sample_exists (path : string) : bool := String.eqb path "LSWMD.pkl".

Definition sample_pickle (path : string) : Exc (list Record) :=
  if String.eqb path "LSWMD.pkl" then Ok sample_archive
  else Raise (OtherException "UnpicklingError").

(** A store with a configuration of the shape [validate_inputs] asks
    for, at location 5, and two dictionaries a caller passes as
    overrides. *)
Definition sample_store : heap :=
  [ [("wafers_per_day", CNum (inject_Z 1000));
     ("operating_days_per_month", CNum (inject_Z 30))];
    [("time_per_wafer_minutes", CNum (inject_Z 2));
     ("inspector_hourly_wage_inr", CNum (inject_Z 300));
     ("false_negative_rate", CNum (5 # 100));
     ("false_positive_rate", CNum (3 # 100))];
    [("false_negative_rate", CNum (1 # 100));
     ("false_positive_rate", CNum (1 # 100))];
    [("wafer_cost_inr", CNum (inject_Z 5000));
     ("defective_wafer_downstream_cost_multiplier", CNum (inject_Z 3));
     ("system_development_cost_inr", CNum (inject_Z 2000000));
     ("monthly_compute_cost_inr", CNum (inject_Z 50000))];
    [("labor_cost_savings_formula", CStr "hours * wage")];
    [("factory", CRef 0); ("manual_inspection", CRef 1);
     ("ai_performance", CRef 2); ("costs", CRef 3); ("formulas", CRef 4)];
    [("wafers_per_day", CNum (inject_Z 2000))];
    [("wafer_cost_inr", CNum (inject_Z 6000)); ("currency", CStr "INR")] ].

Definition sample_config : nat := 5.

Definition sample_overrides : list (string * cval) :=
  [("factory", CRef 6); ("marketing", CRef 6); ("costs", CRef 7)].

(** A configuration that holds itself, as a YAML document with an alias
    to its root gives: the dictionary at location 5 has itself under
    "base".  A caller passes two overrides: the one at location 6 for
    "base", which names the dictionary of the section "factory" of the
    configuration itself, and the one at location 7 for "factory". *)
Definition recursive_store : heap :=
  [ [("wafers_per_day", CNum (inject_Z 1000));
     ("operating_days_per_month", CNum (inject_Z 30))];
    [("time_per_wafer_minutes", CNum (inject_Z 2));
     ("inspector_hourly_wage_inr", CNum (inject_Z 300));
     ("false_negative_rate", CNum (5 # 100));
     ("false_positive_rate", CNum (3 # 100))];
    [("false_negative_rate", CNum (1 # 100));
     ("false_positive_rate", CNum (1 # 100))];
    [("wafer_cost_inr", CNum (inject_Z 5000));
     ("defective_wafer_downstream_cost_multiplier", CNum (inject_Z 3));
     ("system_development_cost_inr", CNum (inject_Z 2000000));
     ("monthly_compute_cost_inr", CNum (inject_Z 50000))];
    [("labor_cost_savings_formula", CStr "hours * wage")];
    [("factory", CRef 0); ("manual_inspection", CRef 1);
     ("ai_performance", CRef 2); ("costs", CRef 3); ("formulas", CRef 4);
     ("base", CRef 5)];
    [("factory", CRef 0)];
    [("wafers_per_day", CNum (inject_Z 2000))] ].

Definition recursive_config : nat := 5.

Definition recursive_overrides : list (string * cval) :=
  [("base", CRef 6); ("factory", CRef 7)].
(** ** Predicates on the accumulators *)

(** Number of records the loop has gone through, as the accumulators
    show it: accepted samples plus skipped records. *)
Definition scanned (st : State) : Z :=
  Z.of_nat (length (images st)) + skipped_count st.

(** The three output lists describe the same samples, position by
    position. *)
Definition aligned (st : State) : Prop :=
  length (images st) = length (labels st)
  /\ length (labels st) = length (metadata_rows st)
  /\ forall (i : nat) (row : MetaRow),
       metadata_rows st !! i = Some row -> labels st !! i = Some (mapped_label row).

Definition valid_samples (st : State) : Prop :=
  Forall (fun lbl => 0 <= lbl <= 8) (labels st)
  /\ Forall (fun img => ndim img = 2) (images st).

(** The shapes of a failure type that lines 96-112 recognise: a numpy
    array, a [list], a [str]. *)
Definition label_shape (v : PyVal) : bool :=
  match v with
  | VNdarray _ _ | VList _ | VStr _ => true
  | _ => false
  end.

Definition nonempty_list (v : PyVal) : bool :=
  match v with
  | VList (_ :: _) => true
  | _ => false
  end.

(** The nine names of the taxonomy. *)
Definition canonical_labels : list string :=
  ["none"; "Center"; "Donut"; "Edge-Loc"; "Edge-Ring"; "Loc"; "Near-full";
   "Random"; "Scratch"].

(** Number of accepted samples of a class. *)
Definition class_count (lbl : Z) (labels : list Z) : Z :=
  Z.of_nat (length (List.filter (fun x => (x =? lbl)%Z) labels)).

(** The count a [Counter] holds for a key, 0 for a missing key. *)
Fixpoint counter_get (k : Z) (c : list (Z * Z)) : Z :=
  match c with
  | [] => 0
  | (k', n) :: c' => if (k =? k')%Z then n else counter_get k c'
  end.

(** ** Predicates on the store of the ROI calculator *)

(** What the memo may hold while the configuration at [cfg] is copied
    into a store that had [n0] objects, the copy of [cfg] being [li]:
    copies are new objects, and only [cfg] has [li] as its copy. *)
Definition memo_ok (n0 li cfg : nat) (memo : list (nat * nat)) : Prop :=
  forall l y, memo_get l memo = Some y -> (n0 <= y)%nat /\ (y = li -> l = cfg).

(** [v'] may be the copy of [v]: the same scalar, or a new object. *)
Definition copy_of (n0 li cfg : nat) (v v' : cval) : Prop :=
  match v with
  | CRef l => exists y, v' = CRef y /\ (n0 <= y)%nat /\ (y = li -> l = cfg)
  | _ => v' = v
  end.

Definition items_copy_of (n0 li cfg : nat) (items items' : dict) : Prop :=
  Forall2 (fun kv kv' => fst kv = fst kv' /\ copy_of n0 li cfg (snd kv) (snd kv'))
    items items'.

(** The contract of one copying step. *)
Definition copy_spec (n0 li cfg : nat)
    (copy : heap -> list (nat * nat) -> cval -> option (heap * list (nat * nat) * cval))
    : Prop :=
  forall h memo v h' memo' v',
    copy h memo v = Some (h', memo', v') ->
    (li < length h)%nat ->
    memo_ok n0 li cfg memo ->
    (length h <= length h')%nat
    /\ (forall j, (j < length h)%nat -> h' !! j = h !! j)
    /\ memo_ok n0 li cfg memo'
    /\ copy_of n0 li cfg v v'.

(** The store during the merge: the objects that existed before the
    call are as in [h0], and the top-level dictionary of the copy, at
    [li], holds [top']. *)
Definition merge_inv (h0 : heap) (li : nat) (top' : dict) (h : heap) : Prop :=
  (forall j, (j < length h0)%nat -> h !! j = h0 !! j) /\ h !! li = Some top'.

(** A store without dangling references, as every Python heap is. *)
Definition closed (h : heap) : Prop :=
  forall l d k l', h !! l = Some d -> In (k, CRef l') d -> (l' < length h)%nat.

Definition memo_keys_ok (n0 : nat) (memo : list (nat * nat)) : Prop :=
  List.NoDup (map fst memo) /\ forall k, In k (map fst memo) -> (k < n0)%nat.

Definition val_in (n0 : nat) (v : cval) : Prop :=
  match v with
  | CRef l => (l < n0)%nat
  | _ => True
  end.

(** The contract of a copying step that is given enough fuel: on a
    store that extends [h0], with a memo of objects of [h0], it returns. *)
Definition total_spec (h0 : heap)
    (copy : heap -> list (nat * nat) -> cval -> option (heap * list (nat * nat) * cval))
    (fuel : nat) : Prop :=
  forall h memo v,
    (forall j, (j < length h0)%nat -> h !! j = h0 !! j) ->
    memo_keys_ok (length h0) memo ->
    val_in (length h0) v ->
    (length h0 - length memo < fuel)%nat ->
    exists h' memo' v',
      copy h memo v = Some (h', memo', v')
      /\ (forall j, (j < length h0)%nat -> h' !! j = h0 !! j)
      /\ memo_keys_ok (length h0) memo'
      /\ (length memo <= length memo')%nat.

(** Splits the four parts of a copy contract. *)
Ltac split_spec := split; [|split; [|split]].


(** ** Predicates and measures for the rest of the loader *)

Definition sum_Z (l : list Z) : Z := fold_right Z.add 0 l.

(** The accumulators of two runs, one after the other. *)
Definition state_app (st1 st2 : State) : State :=
  mkState (images st1 ++ images st2) (labels st1 ++ labels st2)
    (metadata_rows st1 ++ metadata_rows st2)
    (skipped_count st1 + skipped_count st2).

(** The three shapes of a record with the same named values. *)
Definition record_shapes (fields : list (string * PyVal)) : list Record :=
  [RTuple fields; RDict fields; RObject fields].


(** ** Predicates for the rest of the ROI calculator *)

(** A required key is there: its section is a dictionary of the store
    that holds the field with a value other than [None]. *)
Definition field_present (h : heap) (top : dict) (key : string * string) : Prop :=
  exists l d v,
    assoc (fst key) top = Some (CRef l)
    /\ h !! l = Some d
    /\ assoc (snd key) d = Some v
    /\ v <> CNone.

Definition is_scalar_cval (v : cval) : bool :=
  match v with
  | CRef _ => false
  | _ => true
  end.

(** A configuration of two levels: the values of the top-level
    dictionary are scalars or dictionaries of scalars, other than the
    top-level dictionary itself. *)
Definition two_level (h : heap) (config : nat) (top : dict) : Prop :=
  forall k l,
    In (k, CRef l) top ->
    l <> config
    /\ exists d, h !! l = Some d /\ Forall (fun kv => is_scalar_cval (snd kv) = true) d.

(** [v'] in the store [h1] is a copy of [v] in the store [h0]: the same
    scalar, or a dictionary created after [h0] with the items of the
    original. *)
Definition value_copied (h0 h1 : heap) (v v' : cval) : Prop :=
  match v with
  | CRef l =>
      exists y, v' = CRef y /\ (length h0 < y < length h1)%nat /\ h1 !! y = h0 !! l
  | _ => v' = v
  end.

Definition items_copied (h0 h1 : heap) (items items' : dict) : Prop :=
  Forall2 (fun kv kv' => fst kv = fst kv' /\ value_copied h0 h1 (snd kv) (snd kv'))
    items items'.

(** The memo while the sections of a two-level configuration are
    copied: the configuration has its copy at [length h0], a section
    has a copy with its items. *)
Definition memo_two_level (h0 : heap) (config : nat) (h : heap)
    (memo : list (nat * nat)) : Prop :=
  forall l y,
    memo_get l memo = Some y ->
    (l = config /\ y = length h0)
    \/ ((length h0 < y < length h)%nat /\ h !! y = h0 !! l).

(** Takes apart a chain of binds that ended in [Ok]. *)
Ltac exc_inv H :=
  repeat match type of H with
         | exc_bind ?c _ = Ok _ =>
             let E := fresh "E" in
             destruct c eqn:E; cbn [exc_bind] in H; [|discriminate H]
         end.

(** What [validate_inputs] finds out about one required key. *)
Definition check_key (h : heap) (top : dict) (key : string * string)
    : Exc (list (string * string)) :=
  (let! sec := get_or_empty h top (fst key) in
   Ok (match dict_get sec (snd key) CNone with
       | CNone => [key]
       | _ => []
       end))%exc.
(** * Properties of the loader *)

(** ** The taxonomy and the helpers of the summary *)

Lemma class_map_range (s : string) (k : Z) :
  assoc s class_map = Some k -> 0 <= k <= 8.
Proof.
  unfold class_map; cbn [assoc].
  repeat (destruct (String.eqb s _); [intros [= <-]; lia|]).
  discriminate.
Qed.

Lemma exc_map_ok {A B : Type} (f : A -> Exc B) (l : list A) :
  Forall (fun x => exists y, f x = Ok y) l ->
  exists ys, exc_map f l = Ok ys /\ length ys = length l.
Proof.
  induction 1 as [|x l [y Hy] _ [ys [Hys Hlen]]]; cbn [exc_map].
  - exists []. split; reflexivity.
  - rewrite Hy; cbn [exc_bind]. rewrite Hys; cbn [exc_bind].
    exists (y :: ys). split; [reflexivity|]. cbn [length]. now rewrite Hlen.
Qed.

Lemma exc_map_In {A B : Type} (f : A -> Exc B) (l : list A) (ys : list B) (y : B) :
  exc_map f l = Ok ys -> In y ys -> exists x, In x l /\ f x = Ok y.
Proof.
  revert ys. induction l as [|x l IH]; cbn [exc_map]; intros ys.
  - intros [= <-] [].
  - destruct (f x) as [y0|e] eqn:Hx; cbn [exc_bind]; [|discriminate].
    destruct (exc_map f l) as [ys0|e] eqn:Hl; cbn [exc_bind]; [|discriminate].
    intros [= <-] [<-|Hin].
    + exists x. split; [now left|assumption].
    + destruct (IH ys0 eq_refl Hin) as [x' [Hx' Hf]].
      exists x'. split; [now right|assumption].
Qed.

Lemma shape_at_ok (img : NdArray) (i : nat) :
  ndim img = 2 -> (i < 2)%nat -> exists n, shape_at img i = Ok n.
Proof.
  unfold ndim, shape_at. intros Hn Hi.
  destruct (shape img !! i) as [n|] eqn:Hs; [eauto|].
  apply lookup_ge_None in Hs. lia.
Qed.

Lemma py_min_ok (l : list Z) : l <> [] -> exists m, py_min l = Ok m.
Proof. destruct l; [congruence|]. cbn. eauto. Qed.

Lemma py_max_ok (l : list Z) : l <> [] -> exists m, py_max l = Ok m.
Proof. destruct l; [congruence|]. cbn. eauto. Qed.

Lemma pct_ok (count valid : Z) : exists q, pct count valid = Ok q.
Proof.
  unfold pct, truediv.
  destruct (valid >? 0)%Z eqn:Hv; [|eauto].
  destruct (valid =? 0)%Z eqn:Hz; [lia|].
  cbn [exc_bind]. eauto.
Qed.

Lemma dimension_extrema_ok (imgs : list NdArray) :
  Forall (fun img => ndim img = 2) imgs ->
  exists e, dimension_extrema imgs = Ok e.
Proof.
  intros Himgs. unfold dimension_extrema.
  destruct (Z.of_nat (length imgs) >? 0)%Z eqn:Hpos; [|eauto].
  destruct (exc_map_ok (fun img => shape_at img 0) imgs) as [hs [Hhs Hlh]].
  { eapply Forall_impl; [exact Himgs|]. intros img Hd. apply shape_at_ok; [exact Hd|lia]. }
  destruct (exc_map_ok (fun img => shape_at img 1) imgs) as [ws [Hws Hlw]].
  { eapply Forall_impl; [exact Himgs|]. intros img Hd. apply shape_at_ok; [exact Hd|lia]. }
  rewrite Hhs, Hws; cbn [exc_bind].
  destruct hs as [|h hs]; [cbn [length] in Hlh; lia|].
  destruct ws as [|w ws]; [cbn [length] in Hlw; lia|].
  cbn [py_min py_max exc_bind]. eauto.
Qed.

Lemma class_rows_ok (valid : Z) (items : list (Z * Z)) :
  exists rows, exc_map (class_row valid) items = Ok rows.
Proof.
  destruct (exc_map_ok (class_row valid) items) as [rows [H _]]; [|eauto].
  apply Forall_forall. intros [lbl count] _. unfold class_row.
  destruct (pct_ok count valid) as [q Hq]. rewrite Hq. cbn [exc_bind]. eauto.
Qed.

(** On accumulators whose images are all 2-dimensional the summary is
    computed without an exception. *)
Lemma summarize_ok (st : State) :
  Forall (fun img => ndim img = 2) (images st) ->
  exists s, summarize st = Ok s
            /\ valid_count s = Z.of_nat (length (images st))
            /\ skipped s = skipped_count st.
Proof.
  intros H. unfold summarize.
  destruct (dimension_extrema_ok _ H) as [[[[a b] c] d] He]. rewrite He.
  cbn [exc_bind].
  destruct (class_rows_ok (Z.of_nat (length (images st)))
              (sorted_by pair_leb (Counter (labels st)))) as [rows Hr].
  rewrite Hr. cbn [exc_bind]. eexists. repeat split.
Qed.

Section LoaderFacts.

Variable np_array : PyVal -> Exc NdArray.
Variable py_str : PyVal -> Exc string.

Abbreviation record_body := (record_body np_array py_str).
Abbreviation process_record := (process_record np_array py_str).
Abbreviation process_records := (process_records np_array py_str).
Abbreviation stripped_label := (stripped_label py_str).

(** The body either raises with the accumulators untouched, or skips,
    or appends one image, its label and its row. *)
Lemma record_body_cases (record : Record) (st : State) :
  (exists e, record_body record st = (st, Raise e))
  \/ record_body record st = (skips st, Ok tt)
  \/ (exists fields img f_label label_idx,
        extract_fields record = Ok fields
        /\ np_array (f_wafer_map fields) = Ok img
        /\ ndim img = 2
        /\ stripped_label (f_failure_type fields) = Ok (Some f_label)
        /\ assoc f_label class_map = Some label_idx
        /\ record_body record st =
             (accepts st img label_idx
                (mkMetaRow (f_lot_name fields) (f_wafer_index fields) f_label label_idx),
              Ok tt)).
Proof.
  unfold record_body, st_bind, st_lift.
  destruct (extract_fields record) as [fields|e] eqn:Hx; [|left; eauto].
  destruct (is_None (f_wafer_map fields) || is_None (f_failure_type fields));
    [right; left; reflexivity|].
  destruct (np_array (f_wafer_map fields)) as [img|e] eqn:Hnp; [|left; eauto].
  destruct (ndim img =? 2)%Z eqn:Hnd; cbn [negb]; [|right; left; reflexivity].
  apply Z.eqb_eq in Hnd.
  destruct (stripped_label (f_failure_type fields)) as [[f_label|]|e] eqn:Hl;
    [|right; left; reflexivity|left; eauto].
  destruct (assoc f_label class_map) as [label_idx|] eqn:Hc;
    [|right; left; reflexivity].
  right; right. exists fields, img, f_label, label_idx.
  repeat split; auto.
Qed.

Lemma process_record_cases (st : State) (record : Record) :
  process_record st record = skips st
  \/ (exists fields img f_label label_idx,
        extract_fields record = Ok fields
        /\ np_array (f_wafer_map fields) = Ok img
        /\ ndim img = 2
        /\ stripped_label (f_failure_type fields) = Ok (Some f_label)
        /\ assoc f_label class_map = Some label_idx
        /\ process_record st record =
             accepts st img label_idx
               (mkMetaRow (f_lot_name fields) (f_wafer_index fields) f_label label_idx)).
Proof.
  unfold process_record.
  destruct (record_body_cases record st) as [[e H]|[H|(fields & img & l & k & H1 & H2 & H3 & H4 & H5 & H)]];
    rewrite H.
  - left; reflexivity.
  - left; reflexivity.
  - right. exists fields, img, l, k. repeat split; auto.
Qed.

(** ** [Counter], [sorted] and the rows of the class distribution *)

Lemma exc_map_length {A B : Type} (f : A -> Exc B) (l : list A) (ys : list B) :
  exc_map f l = Ok ys -> length ys = length l.
Proof.
  revert ys. induction l as [|x l IH]; cbn [exc_map]; intros ys.
  - now intros [= <-].
  - destruct (f x) as [y0|e]; cbn [exc_bind]; [|discriminate].
    destruct (exc_map f l) as [ys0|e]; cbn [exc_bind]; [|discriminate].
    intros [= <-]. cbn [length]. now rewrite (IH ys0).
Qed.

Lemma exc_map_raise {A B : Type} (f : A -> Exc B) (l : list A) (e : exn) :
  exc_map f l = Raise e -> exists x, In x l /\ f x = Raise e.
Proof.
  induction l as [|x l IH]; cbn [exc_map]; [discriminate|].
  destruct (f x) as [y0|e0] eqn:Hx; cbn [exc_bind].
  - destruct (exc_map f l) as [ys0|e1]; cbn [exc_bind]; [discriminate|].
    intros [= <-]. destruct (IH eq_refl) as [x' [Hin Hf]].
    exists x'. split; [now right|assumption].
  - intros [= <-]. exists x. split; [now left|assumption].
Qed.

Lemma counter_get_incr (x k : Z) (c : list (Z * Z)) :
  counter_get k (counter_incr x c)
  = counter_get k c + (if (k =? x)%Z then 1 else 0).
Proof.
  induction c as [|[k' n] c IH]; cbn [counter_incr counter_get].
  - destruct (k =? x)%Z; lia.
  - destruct (x =? k')%Z eqn:Hx; cbn [counter_get].
    + apply Z.eqb_eq in Hx. subst k'. destruct (k =? x)%Z; lia.
    + destruct (k =? k')%Z eqn:Hk; [|exact IH].
      apply Z.eqb_eq in Hk. subst k'.
      rewrite Z.eqb_sym, Hx. lia.
Qed.

Lemma counter_incr_keys (x : Z) (c : list (Z * Z)) (k : Z) :
  In k (map fst (counter_incr x c)) <-> k = x \/ In k (map fst c).
Proof.
  induction c as [|[k' n] c IH]; cbn [counter_incr map fst In].
  - intuition congruence.
  - destruct (x =? k')%Z eqn:Hx; cbn [map fst In].
    + apply Z.eqb_eq in Hx. subst k'. intuition congruence.
    + rewrite IH. intuition congruence.
Qed.

Lemma counter_incr_NoDup (x : Z) (c : list (Z * Z)) :
  List.NoDup (map fst c) -> List.NoDup (map fst (counter_incr x c)).
Proof.
  induction c as [|[k' n] c IH]; cbn [counter_incr map fst]; intros H.
  - constructor; [intros []|constructor].
  - inversion H as [|? ? Hnot Hrest]; subst.
    destruct (x =? k')%Z eqn:Hx; cbn [map fst].
    + constructor; assumption.
    + constructor; [|now apply IH].
      rewrite counter_incr_keys. intros [->|Hin]; [|contradiction].
      rewrite Z.eqb_refl in Hx. discriminate.
Qed.

Lemma counter_get_In (c : list (Z * Z)) (k n : Z) :
  List.NoDup (map fst c) -> In (k, n) c -> counter_get k c = n.
Proof.
  induction c as [|[k' n'] c IH]; cbn [map fst In counter_get]; [tauto|].
  intros H Hin. inversion H as [|? ? Hnot Hrest]; subst.
  destruct Hin as [[= -> ->]|Hin].
  - now rewrite Z.eqb_refl.
  - destruct (k =? k')%Z eqn:Hk; [|now apply IH].
    apply Z.eqb_eq in Hk. subst k'. exfalso. apply Hnot.
    change k with (fst (k, n)). now apply in_map.
Qed.

Lemma Counter_fold (l : list Z) (c : list (Z * Z)) (k : Z) :
  List.NoDup (map fst c) ->
  List.NoDup (map fst (fold_left (fun c x => counter_incr x c) l c))
  /\ counter_get k (fold_left (fun c x => counter_incr x c) l c)
     = counter_get k c + class_count k l.
Proof.
  revert c. induction l as [|x l IH]; intros c Hc; cbn [fold_left].
  - split; [exact Hc|]. unfold class_count. cbn. lia.
  - destruct (IH (counter_incr x c) (counter_incr_NoDup x c Hc)) as [Hn Hg].
    split; [exact Hn|]. rewrite Hg, counter_get_incr.
    unfold class_count. cbn [List.filter].
    rewrite (Z.eqb_sym k x). destruct (x =? k)%Z; cbn [length]; lia.
Qed.

(** An entry of [Counter(labels)] holds the number of occurrences of its
    label. *)
Lemma Counter_In (l : list Z) (k n : Z) :
  In (k, n) (Counter l) -> n = class_count k l.
Proof.
  intros Hin. unfold Counter in *.
  destruct (Counter_fold l [] k) as [Hn Hg]; [constructor|].
  rewrite (counter_get_In _ _ _ Hn Hin) in Hg. cbn [counter_get] in Hg. lia.
Qed.

Lemma insert_by_In {A : Type} (leb : A -> A -> bool) (x y : A) (l : list A) :
  In y (insert_by leb x l) <-> y = x \/ In y l.
Proof.
  induction l as [|z l IH]; cbn [insert_by In].
  - intuition congruence.
  - destruct (leb x z); cbn [In]; [intuition congruence|].
    rewrite IH. intuition congruence.
Qed.

Lemma sorted_by_In {A : Type} (leb : A -> A -> bool) (y : A) (l : list A) :
  In y (sorted_by leb l) <-> In y l.
Proof.
  unfold sorted_by. induction l as [|x l IH]; cbn [fold_right In]; [tauto|].
  rewrite insert_by_In, IH. intuition congruence.
Qed.

Lemma pct_zero (count : Z) : pct count 0 = Ok (inject_Z 0).
Proof. reflexivity. Qed.

Lemma pct_pos (count valid : Z) :
  0 < valid ->
  pct count valid = Ok (inject_Z count / inject_Z valid * inject_Z 100)%Q.
Proof.
  intros H. unfold pct, truediv.
  destruct (valid >? 0)%Z eqn:Hv; [|lia].
  destruct (valid =? 0)%Z eqn:Hz; [lia|]. reflexivity.
Qed.

Lemma dimension_extrema_raise (imgs : list NdArray) (e : exn) :
  dimension_extrema imgs = Raise e -> e = IndexError.
Proof.
  unfold dimension_extrema.
  destruct (Z.of_nat (length imgs) >? 0)%Z eqn:Hpos; [|discriminate].
  assert (Hshape : forall i x e', shape_at x i = Raise e' -> e' = IndexError).
  { intros i x e'. unfold shape_at. destruct (shape x !! i); [discriminate|].
    now intros [= <-]. }
  destruct (exc_map (fun img => shape_at img 0) imgs) as [hs|e0] eqn:Hhs;
    cbn [exc_bind].
  2:{ intros [= <-]. apply exc_map_raise in Hhs as (x & _ & Hx).
      eapply Hshape, Hx. }
  destruct (exc_map (fun img => shape_at img 1) imgs) as [ws|e0] eqn:Hws;
    cbn [exc_bind].
  2:{ intros [= <-]. apply exc_map_raise in Hws as (x & _ & Hx).
      eapply Hshape, Hx. }
  apply exc_map_length in Hhs, Hws.
  destruct hs as [|h hs]; [cbn [length] in Hhs; lia|].
  destruct ws as [|w ws]; [cbn [length] in Hws; lia|].
  cbn [py_min py_max exc_bind]. discriminate.
Qed.

(** ** Invariants of the loop *)

Lemma process_records_app (st : State) (l1 l2 : list Record) :
  process_records st (l1 ++ l2) = process_records (process_records st l1) l2.
Proof. unfold process_records. apply fold_left_app. Qed.

Lemma process_records_inv (P : State -> Prop) :
  (forall st record, P st -> P (process_record st record)) ->
  forall data st, P st -> P (process_records st data).
Proof.
  intros Hstep. induction data as [|record data IH]; intros st Hst.
  - exact Hst.
  - cbn. apply IH, Hstep, Hst.
Qed.

Lemma process_record_scanned (st : State) (record : Record) :
  scanned (process_record st record) = scanned st + 1.
Proof.
  destruct (process_record_cases st record) as [H|(f & img & l & k & _ & _ & _ & _ & _ & H)];
    rewrite H; unfold scanned, skips, accepts; cbn [images skipped_count].
  - lia.
  - rewrite length_app. cbn [length]. lia.
Qed.

Lemma process_records_scanned (data : list Record) (st : State) :
  scanned (process_records st data) = scanned st + Z.of_nat (length data).
Proof.
  revert st. induction data as [|record data IH]; intros st.
  - cbn. lia.
  - cbn [length]. change (process_records st (record :: data))
      with (process_records (process_record st record) data).
    rewrite IH, process_record_scanned. lia.
Qed.

Lemma process_record_valid (st : State) (record : Record) :
  valid_samples st -> valid_samples (process_record st record).
Proof.
  intros [Hl Hi].
  destruct (process_record_cases st record) as [H|(f & img & l & k & _ & _ & Hd & _ & Hk & H)];
    rewrite H; unfold valid_samples, skips, accepts; cbn [images labels].
  - split; assumption.
  - apply class_map_range in Hk.
    split; apply Forall_app; (split; [assumption|]); repeat constructor;
      solve [lia | exact Hd].
Qed.

Lemma process_record_aligned (st : State) (record : Record) :
  aligned st -> aligned (process_record st record).
Proof.
  intros (Hil & Hlm & Hrows).
  destruct (process_record_cases st record) as [H|(f & img & l & k & _ & _ & _ & _ & _ & H)];
    rewrite H; unfold aligned, skips, accepts; cbn [images labels metadata_rows].
  - repeat split; assumption.
  - rewrite !length_app. cbn [length]. repeat split; [lia|lia|].
    intros i row Hi.
    destruct (Nat.lt_ge_cases i (length (metadata_rows st))) as [Hlt|Hge].
    + rewrite lookup_app_l in Hi by exact Hlt.
      rewrite lookup_app_l by lia. now apply Hrows.
    + rewrite lookup_app_r in Hi by exact Hge.
      rewrite lookup_app_r by lia. rewrite Hlm.
      destruct (i - length (metadata_rows st))%nat as [|n]; cbn in Hi |- *.
      * now injection Hi as <-.
      * destruct n; discriminate.
Qed.

Lemma init_state_valid : valid_samples init_state.
Proof. split; constructor. Qed.

Lemma init_state_aligned : aligned init_state.
Proof. repeat split. intros i row H. cbn in H. now rewrite lookup_nil in H. Qed.

(** ** One iteration, outcome by outcome *)

Lemma process_record_accept (st : State) (record : Record) (fields : Fields)
    (img : NdArray) (f_label : string) (label_idx : Z) :
  extract_fields record = Ok fields ->
  is_None (f_wafer_map fields) = false ->
  is_None (f_failure_type fields) = false ->
  np_array (f_wafer_map fields) = Ok img ->
  ndim img = 2 ->
  stripped_label (f_failure_type fields) = Ok (Some f_label) ->
  assoc f_label class_map = Some label_idx ->
  process_record st record =
    accepts st img label_idx
      (mkMetaRow (f_lot_name fields) (f_wafer_index fields) f_label label_idx).
Proof.
  intros Hx Hw Hf Hnp Hd Hl Hk.
  unfold process_record, record_body, st_bind, st_lift.
  rewrite Hx, Hw, Hf. cbn [orb]. rewrite Hnp.
  apply Z.eqb_eq in Hd. rewrite Hd. cbn [negb]. rewrite Hl, Hk.
  reflexivity.
Qed.

Lemma process_record_raise (st st' : State) (record : Record) (e : exn) :
  record_body record st = (st', Raise e) -> process_record st record = skips st.
Proof.
  intros H. unfold process_record.
  destruct (record_body_cases record st) as [[e' H']|[H'|(f & img & l & k & _ & _ & _ & _ & _ & H')]];
    rewrite H' in H |- *; [reflexivity|discriminate|discriminate].
Qed.

Lemma process_record_skip_ndim (st : State) (record : Record) (fields : Fields)
    (img : NdArray) :
  extract_fields record = Ok fields ->
  np_array (f_wafer_map fields) = Ok img ->
  ndim img <> 2 ->
  process_record st record = skips st.
Proof.
  intros Hx Hnp Hd.
  destruct (process_record_cases st record)
    as [H|(f & img' & l & k & Hx' & Hnp' & Hd' & _ & _ & _)]; [exact H|].
  rewrite Hx in Hx'. injection Hx' as <-.
  rewrite Hnp in Hnp'. injection Hnp' as <-. contradiction.
Qed.

Lemma process_record_skip_label (st : State) (record : Record) (fields : Fields)
    (f_label : string) :
  extract_fields record = Ok fields ->
  stripped_label (f_failure_type fields) = Ok (Some f_label) ->
  assoc f_label class_map = None ->
  process_record st record = skips st.
Proof.
  intros Hx Hl Hk.
  destruct (process_record_cases st record)
    as [H|(f & img' & l & k & Hx' & _ & _ & Hl' & Hk' & _)]; [exact H|].
  rewrite Hx in Hx'. injection Hx' as <-.
  rewrite Hl in Hl'. injection Hl' as <-. congruence.
Qed.

Lemma process_record_skip_shape (st : State) (record : Record) (fields : Fields) :
  extract_fields record = Ok fields ->
  stripped_label (f_failure_type fields) = Ok None ->
  process_record st record = skips st.
Proof.
  intros Hx Hl.
  destruct (process_record_cases st record)
    as [H|(f & img' & l & k & Hx' & _ & _ & Hl' & _ & _)]; [exact H|].
  rewrite Hx in Hx'. injection Hx' as <-. congruence.
Qed.

Lemma accepts_not_skips (st : State) (img : NdArray) (lbl : Z) (row : MetaRow) :
  accepts st img lbl row <> skips st.
Proof.
  unfold accepts, skips. intros H.
  apply (f_equal skipped_count) in H. cbn in H. lia.
Qed.

End LoaderFacts.

(** ** The scenarios of the specification, run on the model *)

(** Scenario A: a mapping with a 2-by-2 map and the label "Center" is
    accepted with class id 1. *)
Example scenario_center :
  labels (process_record np_array_sample py_str_sample init_state record_center) = [1].
Proof. reflexivity. Qed.

(** Scenario C: the label "Bogus" is skipped. *)
Example scenario_bogus :
  process_record np_array_sample py_str_sample init_state record_bogus
  = skips init_state.
Proof. reflexivity. Qed.

(** Scenario D: a 1-dimensional map is skipped. *)
Example scenario_flat_map :
  process_record np_array_sample py_str_sample init_state record_flat_map
  = skips init_state.
Proof. reflexivity. Qed.

(** Scenario F: an archive without records. *)
Example scenario_empty_archive :
  load_wafer_dataset np_array_sample py_str_sample (fun _ => true) (fun _ => Ok [])
    "empty.pkl"
  = Ok (mkOutput [] [] []
          (mkSummary (Some expected_classes) 0 0 [] 0 0 0 0)).
Proof. reflexivity. Qed.

(** [str.strip] on a padded label, and on a string of whitespace. *)
Example strip_padded : strip (String (ascii_of_nat 9) " Edge-Loc  ") = "Edge-Loc".
Proof. reflexivity. Qed.

Example strip_blank : strip "   " = "".
Proof. reflexivity. Qed.

(** The report of the sample configuration without overrides. *)
Example sample_report :
  exists r,
    snd (generate_report sample_store sample_config None) = Ok r
    /\ (labor_savings r == inject_Z 300000)%Q
    /\ (quality_savings r == inject_Z 18000000)%Q
    /\ (scrap_savings r == inject_Z 3000000)%Q
    /\ (total_monthly r == inject_Z 21300000)%Q.
Proof. eexists. split; [reflexivity|]. repeat split. Qed.

(** * The claims about [load_wafer_dataset] *)

Section LoaderClaims.

Variable np_array : PyVal -> Exc NdArray.
Variable py_str : PyVal -> Exc string.

Abbreviation record_body := (record_body np_array py_str).
Abbreviation process_record := (process_record np_array py_str).
Abbreviation process_records := (process_records np_array py_str).
Abbreviation stripped_label := (stripped_label py_str).
Abbreviation normalize_failure_type := (normalize_failure_type py_str).

(** When the archive opens and unpickles, the function returns. *)
Lemma load_wafer_dataset_ok (path_exists : string -> bool)
    (read_pickle : string -> Exc (list Record)) (pkl_path : string)
    (data : list Record) :
  path_exists pkl_path = true ->
  read_pickle pkl_path = Ok data ->
  exists s,
    summarize (process_records init_state data) = Ok s
    /\ valid_count s = Z.of_nat (length (images (process_records init_state data)))
    /\ skipped s = skipped_count (process_records init_state data)
    /\ load_wafer_dataset np_array py_str path_exists read_pickle pkl_path =
         Ok (mkOutput (images (process_records init_state data))
               (labels (process_records init_state data))
               (metadata_rows (process_records init_state data)) s).
Proof.
  intros He Hr.
  destruct (summarize_ok (process_records init_state data)) as (s & Hs & Hv & Hk).
  { apply (process_records_inv np_array py_str valid_samples).
    - apply process_record_valid.
    - apply init_state_valid. }
  exists s. repeat split; try assumption.
  unfold load_wafer_dataset. rewrite He, Hr. cbn [negb]. rewrite Hs. reflexivity.
Qed.

(** C1. Every record of the archive is counted once: one iteration of
    the loop either appends exactly one sample and leaves
    [skipped_count] alone, or leaves the samples alone and adds one to
    [skipped_count]; and for an archive of [N] records the function
    returns, with the number of returned images plus the printed number
    of skipped samples equal to [N]. *)
Theorem accepted_plus_skipped_is_total (path_exists : string -> bool)
    (read_pickle : string -> Exc (list Record)) (pkl_path : string)
    (data : list Record) :
  path_exists pkl_path = true ->
  read_pickle pkl_path = Ok data ->
  (forall st record,
      (process_record st record = skips st
       /\ forall img lbl row, process_record st record <> accepts st img lbl row)
      \/ (exists img lbl row, process_record st record = accepts st img lbl row
          /\ process_record st record <> skips st))
  /\ exists out,
       load_wafer_dataset np_array py_str path_exists read_pickle pkl_path = Ok out
       /\ valid_count (out_summary out) = Z.of_nat (length (out_images out))
       /\ Z.of_nat (length (out_images out)) + skipped (out_summary out)
          = Z.of_nat (length data).
Proof.
  intros He Hr. split.
  - intros st record.
    destruct (process_record_cases np_array py_str st record)
      as [H|(f & img & l & k & _ & _ & _ & _ & _ & H)].
    + left. split; [exact H|]. intros img lbl row. rewrite H.
      intros E. symmetry in E. revert E. apply accepts_not_skips.
    + right. eexists _, _, _. split; [exact H|]. rewrite H. apply accepts_not_skips.
  - destruct (load_wafer_dataset_ok path_exists read_pickle pkl_path data He Hr)
      as (s & _ & Hv & Hk & Hload).
    eexists. split; [exact Hload|]. cbn [out_summary out_images].
    split; [exact Hv|]. rewrite Hk.
    pose proof (process_records_scanned np_array py_str data init_state) as Hs.
    unfold scanned in Hs. cbn [init_state images skipped_count length] in Hs. lia.
Qed.

(** C3. Whatever the archive holds, every label the loop has accepted is
    a class id between 0 and 8 and every accepted image has two
    dimensions; a record whose coerced wafer map has another number of
    dimensions is skipped, and so is a record whose stripped label is
    not a key of [class_map]. *)
Theorem accepted_samples_are_valid :
  (forall data, valid_samples (process_records init_state data))
  /\ (forall st record fields img,
        extract_fields record = Ok fields ->
        np_array (f_wafer_map fields) = Ok img ->
        ndim img <> 2 ->
        process_record st record = skips st)
  /\ (forall st record fields f_label,
        extract_fields record = Ok fields ->
        stripped_label (f_failure_type fields) = Ok (Some f_label) ->
        assoc f_label class_map = None ->
        process_record st record = skips st).
Proof.
  split; [|split].
  - intros data. apply (process_records_inv np_array py_str valid_samples).
    + apply process_record_valid.
    + apply init_state_valid.
  - intros st record fields img. apply process_record_skip_ndim.
  - intros st record fields f_label. apply process_record_skip_label.
Qed.

(** C8. An exception raised anywhere in the body of the loop is caught
    by the [except] clause: the iteration counts the record as skipped
    and leaves the three lists as they were; the loop goes on with the
    records that follow; and the function returns what was accepted. *)
Theorem record_exceptions_are_skipped :
  (forall st st' record e,
      record_body record st = (st', Raise e) ->
      process_record st record = skips st)
  /\ (forall st before record after,
        process_records st (before ++ record :: after)
        = process_records (process_record (process_records st before) record) after)
  /\ (forall path_exists read_pickle pkl_path data,
        path_exists pkl_path = true ->
        read_pickle pkl_path = Ok data ->
        exists out,
          load_wafer_dataset np_array py_str path_exists read_pickle pkl_path = Ok out
          /\ out_images out = images (process_records init_state data)
          /\ out_labels out = labels (process_records init_state data)
          /\ out_metadata out = metadata_rows (process_records init_state data)).
Proof.
  split; [|split].
  - intros st st' record e. apply process_record_raise.
  - intros st before record after.
    rewrite process_records_app. reflexivity.
  - intros path_exists read_pickle pkl_path data He Hr.
    destruct (load_wafer_dataset_ok path_exists read_pickle pkl_path data He Hr)
      as (s & _ & _ & _ & Hload).
    eexists. split; [exact Hload|]. repeat split.
Qed.

(** C9. After any number of records the three output lists have the
    same length, and the [mapped_label] of the row at a position is the
    label at that position. *)
Theorem output_lists_stay_aligned (data : list Record) :
  aligned (process_records init_state data).
Proof.
  apply (process_records_inv np_array py_str aligned).
  - apply process_record_aligned.
  - apply init_state_aligned.
Qed.

(** What one iteration does once the fields are there, the map is
    2-dimensional and the failure type has one of the three shapes: the
    label is stripped, then looked up. *)
Lemma process_record_lookup (st : State) (record : Record) (fields : Fields)
    (img : NdArray) (s : string) :
  extract_fields record = Ok fields ->
  is_None (f_wafer_map fields) = false ->
  is_None (f_failure_type fields) = false ->
  np_array (f_wafer_map fields) = Ok img ->
  ndim img = 2 ->
  normalize_failure_type (f_failure_type fields) = Ok (Some s) ->
  process_record st record =
    match assoc (strip s) class_map with
    | Some label_idx =>
        accepts st img label_idx
          (mkMetaRow (f_lot_name fields) (f_wafer_index fields) (strip s) label_idx)
    | None => skips st
    end.
Proof.
  intros Hx Hw Hf Hnp Hd Hn.
  assert (Hl : stripped_label (f_failure_type fields) = Ok (Some (strip s))).
  { unfold stripped_label. rewrite Hn. reflexivity. }
  destruct (assoc (strip s) class_map) as [k|] eqn:Hk.
  - now apply process_record_accept.
  - eapply process_record_skip_label; eassumption.
Qed.

(** C2. The label is computed by the shape of the failure type, in this
    order.  A numpy array without elements gives "none", otherwise the
    [str] of its first element.  A list without elements gives "none";
    a list whose first element is a non-empty list gives the [str] of
    that inner list's first element; any other list gives the [str] of
    its first element.  A [str] is taken as it is.  Every other shape
    gives no label and the record is skipped.  The label is stripped
    before it is looked up in [class_map]. *)
Theorem label_normalization_rules :
  (forall sh, normalize_failure_type (VNdarray sh []) = Ok (Some "none"))
  /\ (forall sh item rest,
        normalize_failure_type (VNdarray sh (item :: rest))
        = (let! s := py_str item in Ok (Some s))%exc)
  /\ normalize_failure_type (VList []) = Ok (Some "none")
  /\ (forall inner inner_rest rest,
        normalize_failure_type (VList (VList (inner :: inner_rest) :: rest))
        = (let! s := py_str inner in Ok (Some s))%exc)
  /\ (forall item rest,
        nonempty_list item = false ->
        normalize_failure_type (VList (item :: rest))
        = (let! s := py_str item in Ok (Some s))%exc)
  /\ (forall s, normalize_failure_type (VStr s) = Ok (Some s))
  /\ (forall v, label_shape v = false -> normalize_failure_type v = Ok None)
  /\ (forall st record fields,
        extract_fields record = Ok fields ->
        label_shape (f_failure_type fields) = false ->
        process_record st record = skips st)
  /\ (forall st record fields img s,
        extract_fields record = Ok fields ->
        is_None (f_wafer_map fields) = false ->
        is_None (f_failure_type fields) = false ->
        np_array (f_wafer_map fields) = Ok img ->
        ndim img = 2 ->
        normalize_failure_type (f_failure_type fields) = Ok (Some s) ->
        process_record st record =
          match assoc (strip s) class_map with
          | Some label_idx =>
              accepts st img label_idx
                (mkMetaRow (f_lot_name fields) (f_wafer_index fields) (strip s)
                   label_idx)
          | None => skips st
          end).
Proof.
  repeat split.
  - intros item rest H. destruct item as [| | |[|inner items]| |];
      try reflexivity. discriminate.
  - intros v H. destruct v; try reflexivity; discriminate.
  - intros st record fields Hx H. eapply process_record_skip_shape; [exact Hx|].
    unfold stripped_label.
    destruct (f_failure_type fields); try reflexivity; discriminate.
  - intros st record fields img s. apply process_record_lookup.
Qed.

(** C5. A record whose failure type is an empty sequence, an empty list
    or a numpy array without elements (the spec's "nested sequence of
    length 0"), and whose wafer map coerces to two dimensions, gets the
    label "none" and is accepted with class id 0. *)
Theorem empty_failure_type_is_none (st : State) (record : Record)
    (fields : Fields) (img : NdArray) :
  extract_fields record = Ok fields ->
  is_None (f_wafer_map fields) = false ->
  np_array (f_wafer_map fields) = Ok img ->
  ndim img = 2 ->
  (f_failure_type fields = VList []
   \/ exists sh, f_failure_type fields = VNdarray sh []) ->
  stripped_label (f_failure_type fields) = Ok (Some "none")
  /\ process_record st record =
       accepts st img 0
         (mkMetaRow (f_lot_name fields) (f_wafer_index fields) "none" 0).
Proof.
  intros Hx Hw Hnp Hd Hft.
  assert (Hl : stripped_label (f_failure_type fields) = Ok (Some "none")).
  { destruct Hft as [->|[sh ->]]; reflexivity. }
  split; [exact Hl|].
  eapply process_record_accept; try eassumption; [|reflexivity].
  destruct Hft as [->|[sh ->]]; reflexivity.
Qed.

(** A list that holds one empty list is not such a value: its first
    element is an empty list, whose [str] is the label.  With
    [str([]) = "[]"] the record is skipped. *)
Lemma list_of_empty_list_is_skipped (st : State) (record : Record)
    (fields : Fields) (rest : list PyVal) :
  py_str (VList []) = Ok "[]" ->
  extract_fields record = Ok fields ->
  f_failure_type fields = VList (VList [] :: rest) ->
  process_record st record = skips st.
Proof.
  intros Hstr Hx Hft.
  eapply process_record_skip_label with (f_label := "[]"); [exact Hx| |reflexivity].
  rewrite Hft. unfold stripped_label. cbn. rewrite Hstr. reflexivity.
Qed.

(** C6. On each of the nine names of the taxonomy the plain-string rule
    followed by the strip gives the name back, and the name is a key of
    [class_map]. *)
Theorem canonical_labels_are_fixed_points (s : string) :
  In s canonical_labels ->
  stripped_label (VStr s) = Ok (Some s)
  /\ exists label_idx, assoc s class_map = Some label_idx.
Proof.
  unfold canonical_labels. cbn [In].
  intros [<-|[<-|[<-|[<-|[<-|[<-|[<-|[<-|[<-|[]]]]]]]]]];
    (split; [reflexivity|eexists; reflexivity]).
Qed.

End LoaderClaims.

(** The statement of C1 on the sample archive: six records, two
    accepted and four skipped. *)
Lemma accepted_plus_skipped_is_total_witness :
  sample_exists "LSWMD.pkl" = true
  /\ sample_pickle "LSWMD.pkl" = Ok sample_archive
  /\ exists out,
       load_wafer_dataset np_array_sample py_str_sample sample_exists sample_pickle
         "LSWMD.pkl" = Ok out
       /\ valid_count (out_summary out) = Z.of_nat (length (out_images out))
       /\ Z.of_nat (length (out_images out)) + skipped (out_summary out)
          = Z.of_nat (length sample_archive).
Proof.
  split; [reflexivity|]. split; [reflexivity|].
  apply (accepted_plus_skipped_is_total np_array_sample py_str_sample
           sample_exists sample_pickle "LSWMD.pkl" sample_archive);
    reflexivity.
Defined.

(** The statement of C3 on the sample records: the accepted samples of
    the sample archive are valid, the record with a 1-dimensional map
    and the record labelled "Bogus" are skipped. *)
Lemma accepted_samples_are_valid_witness :
  valid_samples
    (process_records np_array_sample py_str_sample init_state sample_archive)
  /\ process_record np_array_sample py_str_sample init_state record_flat_map
     = skips init_state
  /\ process_record np_array_sample py_str_sample init_state record_bogus
     = skips init_state.
Proof.
  destruct (accepted_samples_are_valid np_array_sample py_str_sample)
    as (Hvalid & Hndim & Hlabel).
  split; [apply Hvalid|]. split.
  - eapply Hndim; [reflexivity|reflexivity|vm_compute; discriminate].
  - eapply Hlabel; reflexivity.
Defined.

(** The statement of C8 on the record whose ragged map makes
    [np_array_sample] raise [ValueError], in the middle of the sample
    archive. *)
Lemma record_exceptions_are_skipped_witness :
  record_body np_array_sample py_str_sample record_ragged_map init_state
    = (init_state, Raise ValueError)
  /\ process_record np_array_sample py_str_sample init_state record_ragged_map
     = skips init_state
  /\ exists out,
       load_wafer_dataset np_array_sample py_str_sample sample_exists sample_pickle
         "LSWMD.pkl" = Ok out
       /\ out_labels out = [1; 0].
Proof.
  destruct (record_exceptions_are_skipped np_array_sample py_str_sample)
    as (Hraise & _ & Hload).
  split; [reflexivity|]. split.
  - eapply Hraise. reflexivity.
  - destruct (Hload sample_exists sample_pickle "LSWMD.pkl" sample_archive
                eq_refl eq_refl) as (out & Hout & _ & Hlabels & _).
    exists out. split; [exact Hout|]. rewrite Hlabels. reflexivity.
Defined.

(** The statement of C2 on concrete failure types: a list whose first
    element is a string, an integer where a label is expected, and a
    padded label in the record of a named tuple. *)
Lemma label_normalization_rules_witness :
  normalize_failure_type py_str_sample (VList [VStr "Loc"; VStr "Edge-Ring"])
    = Ok (Some "Loc")
  /\ normalize_failure_type py_str_sample (VInt 7) = Ok None
  /\ process_record np_array_sample py_str_sample init_state
       (RDict [("waferMap", sample_map); ("failureType", VInt 7)])
     = skips init_state
  /\ process_record np_array_sample py_str_sample init_state
       (RTuple [("waferMap", sample_map); ("failureType", VStr " Scratch  ")])
     = accepts init_state (mkNdArray [2%nat; 2%nat] [VInt 0; VInt 1; VInt 1; VInt 0]) 8
         (mkMetaRow (VStr "") (VInt 0) "Scratch" 8).
Proof.
  destruct (label_normalization_rules np_array_sample py_str_sample)
    as (_ & _ & _ & _ & Hfirst & _ & Hother & Hskip & Hlookup).
  split; [apply (Hfirst (VStr "Loc") [VStr "Edge-Ring"]); reflexivity|].
  split; [apply Hother; reflexivity|].
  split; [eapply Hskip; reflexivity|].
  apply (Hlookup init_state
           (RTuple [("waferMap", sample_map); ("failureType", VStr " Scratch  ")])
           (mkFields sample_map (VStr " Scratch  ") (VStr "") (VInt 0))
           (mkNdArray [2%nat; 2%nat] [VInt 0; VInt 1; VInt 1; VInt 0])
           " Scratch  "); reflexivity.
Defined.

(** The statement of C5 on the named tuple whose failure type is the
    empty list. *)
Lemma empty_failure_type_is_none_witness :
  stripped_label py_str_sample (VList []) = Ok (Some "none")
  /\ process_record np_array_sample py_str_sample init_state record_empty_label
     = accepts init_state (mkNdArray [2%nat; 2%nat] [VInt 0; VInt 1; VInt 1; VInt 0]) 0
         (mkMetaRow (VStr "") (VInt 0) "none" 0).
Proof.
  apply (empty_failure_type_is_none np_array_sample py_str_sample init_state
           record_empty_label
           (mkFields sample_map (VList []) (VStr "") (VInt 0))
           (mkNdArray [2%nat; 2%nat] [VInt 0; VInt 1; VInt 1; VInt 0]));
    try reflexivity.
  left. reflexivity.
Defined.

(** The statement of C6 on "Edge-Loc". *)
Lemma canonical_labels_are_fixed_points_witness :
  In "Edge-Loc" canonical_labels
  /\ stripped_label py_str_sample (VStr "Edge-Loc") = Ok (Some "Edge-Loc").
Proof.
  assert (H : In "Edge-Loc" canonical_labels) by (cbn; tauto).
  split; [exact H|].
  exact (proj1 (canonical_labels_are_fixed_points py_str_sample "Edge-Loc" H)).
Defined.

Lemma canonical_labels_are_keys : canonical_labels = map fst class_map.
Proof. reflexivity. Qed.

(** C4. A path that does not exist makes the function raise
    [FileNotFoundError]; an archive that exists and fails to open or to
    unpickle makes it raise [ValueError], another exception; and the
    function returns lists only for an archive that exists and
    unpickles, so neither failure comes with results. *)
Theorem fatal_errors_are_distinguished (np_array : PyVal -> Exc NdArray)
    (py_str : PyVal -> Exc string) (path_exists : string -> bool)
    (read_pickle : string -> Exc (list Record)) (pkl_path : string) :
  (path_exists pkl_path = false ->
   load_wafer_dataset np_array py_str path_exists read_pickle pkl_path
   = Raise FileNotFoundError)
  /\ (forall e,
        path_exists pkl_path = true ->
        read_pickle pkl_path = Raise e ->
        load_wafer_dataset np_array py_str path_exists read_pickle pkl_path
        = Raise ValueError)
  /\ FileNotFoundError <> ValueError
  /\ (forall out,
        load_wafer_dataset np_array py_str path_exists read_pickle pkl_path = Ok out ->
        path_exists pkl_path = true
        /\ exists data, read_pickle pkl_path = Ok data).
Proof.
  unfold load_wafer_dataset. repeat split.
  - intros ->. reflexivity.
  - intros e -> ->. reflexivity.
  - discriminate.
  - destruct (path_exists pkl_path); [reflexivity|discriminate].
  - destruct (path_exists pkl_path); [|discriminate].
    cbn [negb] in *. destruct (read_pickle pkl_path) as [data|e]; [eauto|discriminate].
Qed.

(** The statement of C4 on the sample file system: "missing.pkl" does
    not exist; "LSWMD.pkl" exists, and an unpickler that fails on it
    gives [ValueError]. *)
Lemma fatal_errors_are_distinguished_witness :
  load_wafer_dataset np_array_sample py_str_sample sample_exists sample_pickle
    "missing.pkl" = Raise FileNotFoundError
  /\ load_wafer_dataset np_array_sample py_str_sample sample_exists
       (fun _ => Raise (OtherException "UnpicklingError")) "LSWMD.pkl"
     = Raise ValueError.
Proof.
  split.
  - apply (fatal_errors_are_distinguished np_array_sample py_str_sample
             sample_exists sample_pickle "missing.pkl"). reflexivity.
  - apply (proj1 (proj2 (fatal_errors_are_distinguished np_array_sample py_str_sample
             sample_exists (fun _ => Raise (OtherException "UnpicklingError"))
             "LSWMD.pkl")) (OtherException "UnpicklingError")); reflexivity.
Defined.

Lemma class_row_inv (valid : Z) (item : Z * Z) (row : ClassRow) :
  class_row valid item = Ok row ->
  cr_lbl row = fst item /\ cr_count row = snd item
  /\ pct (snd item) valid = Ok (cr_pct row).
Proof.
  destruct item as [lbl count]. unfold class_row. cbn [fst snd].
  destruct (pct count valid) as [q|e]; cbn [exc_bind]; [|discriminate].
  intros [= <-]. repeat split.
Qed.

Lemma summarize_inv (st : State) (s : Summary) :
  summarize st = Ok s ->
  exists ext,
    dimension_extrema (images st) = Ok ext
    /\ (h_min s, h_max s, w_min s, w_max s) = ext
    /\ valid_count s = Z.of_nat (length (images st))
    /\ exc_map (class_row (Z.of_nat (length (images st))))
         (sorted_by pair_leb (Counter (labels st))) = Ok (class_rows s).
Proof.
  unfold summarize.
  destruct (dimension_extrema (images st)) as [[[[a b] c] d]|e]; cbn [exc_bind];
    [|discriminate].
  destruct (exc_map _ _) as [rows|e]; cbn [exc_bind]; [|discriminate].
  intros [= <-]. eexists. repeat split.
Qed.

(** C7. With no accepted image the four extrema are 0 and every
    percentage of the summary is 0; the summary never raises
    [ZeroDivisionError]; with at least one accepted image each row of
    the class distribution holds the number of accepted samples of its
    class and that number divided by the number of accepted images,
    times 100. *)
Theorem summary_guards_empty_dataset :
  (forall st,
      images st = [] ->
      exists s,
        summarize st = Ok s
        /\ h_min s = 0 /\ h_max s = 0 /\ w_min s = 0 /\ w_max s = 0
        /\ Forall (fun row => cr_pct row = inject_Z 0) (class_rows s))
  /\ (forall st, summarize st <> Raise ZeroDivisionError)
  /\ (forall st s,
        images st <> [] ->
        summarize st = Ok s ->
        Forall (fun row =>
                  cr_count row = class_count (cr_lbl row) (labels st)
                  /\ cr_pct row
                     = (inject_Z (cr_count row)
                        / inject_Z (Z.of_nat (length (images st)))
                        * inject_Z 100)%Q)
          (class_rows s)).
Proof.
  split; [|split].
  - intros st Himg.
    destruct (summarize_ok st) as (s & Hs & _ & _); [rewrite Himg; constructor|].
    exists s. split; [exact Hs|].
    destruct (summarize_inv st s Hs) as (ext & Hext & Hs4 & _ & Hrows).
    rewrite Himg in Hext, Hrows. cbn in Hext. injection Hext as <-.
    injection Hs4 as -> -> -> ->. repeat split.
    apply Forall_forall. intros row Hin.
    apply list_elem_of_In in Hin.
    destruct (exc_map_In _ _ _ _ Hrows Hin) as (item & _ & Hitem).
    apply class_row_inv in Hitem as (_ & _ & Hp).
    cbn [length Z.of_nat] in Hp. rewrite pct_zero in Hp. now injection Hp as <-.
  - intros st H. unfold summarize in H.
    destruct (dimension_extrema (images st)) as [[[[a b] c] d]|e] eqn:He;
      cbn [exc_bind] in H.
    + destruct (class_rows_ok (Z.of_nat (length (images st)))
                  (sorted_by pair_leb (Counter (labels st)))) as [rows Hr].
      rewrite Hr in H. discriminate.
    + apply dimension_extrema_raise in He. congruence.
  - intros st s Himg Hs.
    destruct (summarize_inv st s Hs) as (ext & _ & _ & _ & Hrows).
    apply Forall_forall. intros row Hin.
    apply list_elem_of_In in Hin.
    destruct (exc_map_In _ _ _ _ Hrows Hin) as ([lbl count] & Hitem & Hrow).
    apply class_row_inv in Hrow as (Hl & Hc & Hp). cbn [fst snd] in *.
    apply sorted_by_In, Counter_In in Hitem.
    split; [congruence|].
    rewrite pct_pos in Hp.
    + injection Hp as <-. now rewrite Hc.
    + destruct (images st); [congruence|]. cbn [length]. lia.
Qed.

(** The statement of C7 on the accumulators of the sample archive and
    on the accumulators of an empty archive. *)
Lemma summary_guards_empty_dataset_witness :
  (exists s,
     summarize init_state = Ok s
     /\ h_min s = 0 /\ h_max s = 0 /\ w_min s = 0 /\ w_max s = 0
     /\ Forall (fun row => cr_pct row = inject_Z 0) (class_rows s))
  /\ Forall (fun row =>
               cr_count row
               = class_count (cr_lbl row)
                   (labels (process_records np_array_sample py_str_sample
                              init_state sample_archive))
               /\ cr_pct row = (inject_Z (cr_count row) / inject_Z 2 * inject_Z 100)%Q)
       [mkClassRow "none" 0 1 (100 # 2); mkClassRow "Center" 1 1 (100 # 2)].
Proof.
  destruct summary_guards_empty_dataset as (Hempty & _ & Hrows).
  split; [apply Hempty; reflexivity|].
  apply (Hrows (process_records np_array_sample py_str_sample init_state sample_archive)
           (mkSummary (Some [2; 3; 4; 5; 6; 7; 8]) 2 4
              [mkClassRow "none" 0 1 (100 # 2); mkClassRow "Center" 1 1 (100 # 2)]
              2 2 2 2)).
  - discriminate.
  - reflexivity.
Defined.

(** * Properties of the ROI calculator *)

Local Open Scope nat_scope.

Section DeepCopy.

(** [n0] is the size of the store when [generate_report] is called,
    [cfg] the location of the configuration and [li] that of its copy. *)
Variables n0 li cfg : nat.
Hypothesis n0_le_li : n0 <= li.

Lemma copy_items_spec
    (copy : heap -> list (nat * nat) -> cval -> option (heap * list (nat * nat) * cval)) :
  copy_spec n0 li cfg copy ->
  forall items h memo h' memo' items',
    copy_items copy h memo items = Some (h', memo', items') ->
    li < length h ->
    memo_ok n0 li cfg memo ->
    length h <= length h'
    /\ (forall j, j < length h -> h' !! j = h !! j)
    /\ memo_ok n0 li cfg memo'
    /\ items_copy_of n0 li cfg items items'.
Proof using n0_le_li.
  intros Hcopy. induction items as [|[k v] rest IH];
    intros h memo h' memo' items' Hrun Hli Hmemo; cbn [copy_items] in Hrun.
  - injection Hrun as <- <- <-. split_spec; auto. constructor.
  - destruct (copy h memo v) as [[[h1 memo1] v']|] eqn:Hv; [|discriminate].
    destruct (copy_items copy h1 memo1 rest) as [[[h2 memo2] rest']|] eqn:Hrest;
      [|discriminate].
    injection Hrun as <- <- <-.
    destruct (Hcopy _ _ _ _ _ _ Hv Hli Hmemo) as (Hlen1 & Hpre1 & Hmemo1 & Hcv).
    destruct (IH _ _ _ _ _ Hrest ltac:(lia) Hmemo1) as (Hlen2 & Hpre2 & Hmemo2 & Hitems).
    split_spec.
    + lia.
    + intros j Hj. rewrite Hpre2 by lia. apply Hpre1, Hj.
    + exact Hmemo2.
    + constructor; [split; [reflexivity|exact Hcv]|exact Hitems].
Qed.

Lemma memo_ok_cons (memo : list (nat * nat)) (l y : nat) :
  memo_ok n0 li cfg memo -> n0 <= y -> (y = li -> l = cfg) ->
  memo_ok n0 li cfg ((l, y) :: memo).
Proof using Type.
  intros Hmemo Hy Hli l0 y0. cbn [memo_get].
  destruct (l0 =? l) eqn:E.
  - apply Nat.eqb_eq in E. subst l0. intros [= <-]. split; assumption.
  - apply Hmemo.
Qed.

(** Whatever the bound, a copy writes only to objects it has created. *)
Lemma deepcopy_spec (fuel : nat) : copy_spec n0 li cfg (deepcopy fuel).
Proof using n0_le_li.
  induction fuel as [|fuel IH]; intros h memo v h' memo' v' Hrun Hli Hmemo;
    destruct v as [q|s| |l]; cbn [deepcopy] in Hrun;
    try (injection Hrun as <- <- <-; split_spec; auto; reflexivity).
  - destruct (memo_get l memo) as [y|] eqn:Hy; [|discriminate].
    injection Hrun as <- <- <-. split_spec; auto.
    destruct (Hmemo l y Hy). exists y. auto.
  - destruct (memo_get l memo) as [y|] eqn:Hy.
    { injection Hrun as <- <- <-. split_spec; auto.
      destruct (Hmemo l y Hy). exists y. auto. }
    destruct (h !! l) as [x|]; [|discriminate].
    destruct (copy_items (deepcopy fuel) (h ++ [[]]) ((l, length h) :: memo) x)
      as [[[h2 memo2] items]|] eqn:Hitems; [|discriminate].
    injection Hrun as <- <- <-.
    destruct (copy_items_spec _ IH _ _ _ _ _ _ Hitems) as (Hlen & Hpre & Hmemo2 & _).
    { rewrite length_app. cbn [length]. lia. }
    { apply memo_ok_cons; [exact Hmemo|lia|lia]. }
    rewrite length_app in Hlen, Hpre. cbn [length] in Hlen, Hpre.
    split_spec.
    + rewrite length_insert. lia.
    + intros j Hj. rewrite list_lookup_insert_ne by lia.
      rewrite Hpre by lia. apply lookup_app_l, Hj.
    + exact Hmemo2.
    + exists (length h). split; [reflexivity|]. split; lia.
Qed.

End DeepCopy.

(** The copy of the configuration: a new dictionary with the keys of
    the original, whose values are the same scalars or new objects, none
    of them the copy itself unless the configuration holds itself. *)
Lemma deepcopy_config (fuel : nat) (h h1 : heap) (cfg : nat) (top : dict)
    (memo : list (nat * nat)) (v : cval) :
  h !! cfg = Some top ->
  deepcopy fuel h [] (CRef cfg) = Some (h1, memo, v) ->
  exists top',
    v = CRef (length h)
    /\ h1 !! length h = Some top'
    /\ (forall j, j < length h -> h1 !! j = h !! j)
    /\ items_copy_of (length h) (length h) cfg top top'.
Proof.
  intros Hcfg Hrun. destruct fuel as [|fuel]; cbn [deepcopy memo_get] in Hrun;
    [discriminate|].
  rewrite Hcfg in Hrun.
  destruct (copy_items (deepcopy fuel) (h ++ [[]]) [(cfg, length h)] top)
    as [[[h2 memo2] top']|] eqn:Hitems; [|discriminate].
  injection Hrun as <- <- <-.
  destruct (copy_items_spec (length h) (length h) cfg (Nat.le_refl _) _
              (deepcopy_spec (length h) (length h) cfg (Nat.le_refl _) fuel)
              _ _ _ _ _ _ Hitems) as (Hlen & Hpre & _ & Hcopy).
  { rewrite length_app. cbn [length]. lia. }
  { apply memo_ok_cons; [intros l y [=]|lia|reflexivity]. }
  rewrite length_app in Hlen, Hpre. cbn [length] in Hlen, Hpre.
  exists top'. split_spec.
  - reflexivity.
  - apply list_lookup_insert_eq. lia.
  - intros j Hj. rewrite list_lookup_insert_ne by lia.
    rewrite Hpre by lia. apply lookup_app_l, Hj.
  - exact Hcopy.
Qed.

Lemma items_copy_of_assoc (n0 li cfg : nat) (items items' : dict) (k : string) :
  items_copy_of n0 li cfg items items' ->
  match assoc k items' with
  | None => assoc k items = None
  | Some v' => exists v, assoc k items = Some v /\ copy_of n0 li cfg v v'
  end.
Proof.
  induction 1 as [|[k1 v1] [k2 v2] items items' [Hk Hv] _ IH]; cbn [assoc].
  - reflexivity.
  - cbn [fst snd] in Hk, Hv. subst k2.
    destruct (String.eqb k k1); [eauto|exact IH].
Qed.

Section Merge.

(** [h0] is the store when [generate_report] is called, [li] the
    top-level dictionary of the copy and [top'] its items, whose
    references are new objects other than [li]. *)
Variable h0 : heap.
Variable li : nat.
Variable top' : dict.
Hypothesis top_fresh :
  forall k l, assoc k top' = Some (CRef l) -> length h0 <= l /\ l <> li.

Lemma update_section_inv (h h' : heap) (section : string) (data : cval)
    (r : Exc unit) :
  merge_inv h0 li top' h ->
  update_section h li section data = (h', r) ->
  merge_inv h0 li top' h'.
Proof using top_fresh.
  intros [Hold Htop] Hrun. unfold update_section in Hrun. rewrite Htop in Hrun.
  destruct (assoc section top') as [[q|s| |ls]|] eqn:Hsec;
    try (injection Hrun as <- <-; split; assumption).
  destruct (top_fresh _ _ Hsec) as [Hge Hne].
  destruct (h !! ls) as [target|]; [|injection Hrun as <- <-; split; assumption].
  destruct data as [q|s| |ld].
  - injection Hrun as <- <-; split; assumption.
  - destruct s; injection Hrun as <- <-; split; assumption.
  - injection Hrun as <- <-; split; assumption.
  - destruct (h !! ld) as [items|]; injection Hrun as <- <-; [|split; assumption].
    split.
    + intros j Hj. rewrite list_lookup_insert_ne by lia. apply Hold, Hj.
    + rewrite list_lookup_insert_ne by congruence. exact Htop.
Qed.

Lemma merge_overrides_inv (overrides : list (string * cval)) (h h' : heap)
    (r : Exc unit) :
  merge_inv h0 li top' h ->
  merge_overrides h li overrides = (h', r) ->
  merge_inv h0 li top' h'.
Proof using top_fresh.
  revert h. induction overrides as [|[section data] rest IH]; intros h Hinv Hrun;
    cbn [merge_overrides] in Hrun.
  - now injection Hrun as <- <-.
  - destruct (update_section h li section data) as [h1 [[]|e]] eqn:Hstep.
    + eapply IH; [|exact Hrun]. eapply update_section_inv; eassumption.
    + injection Hrun as <- <-. eapply update_section_inv; eassumption.
Qed.

(** A section that the copy does not have leaves the store alone and
    raises nothing. *)
Lemma update_section_absent (h : heap) (section : string) (data : cval) :
  h !! li = Some top' ->
  assoc section top' = None ->
  update_section h li section data = (h, Ok tt).
Proof using Type.
  intros Htop Hsec. unfold update_section. now rewrite Htop, Hsec.
Qed.

Lemma merge_overrides_absent (before after : list (string * cval))
    (section : string) (data : cval) (h : heap) :
  merge_inv h0 li top' h ->
  assoc section top' = None ->
  merge_overrides h li (before ++ (section, data) :: after)
  = merge_overrides h li (before ++ after).
Proof using top_fresh.
  intros Hinv Hsec. revert h Hinv.
  induction before as [|[s d] before IH]; intros h Hinv; cbn [app merge_overrides].
  - rewrite update_section_absent; [reflexivity|apply Hinv|exact Hsec].
  - destruct (update_section h li s d) as [h1 [[]|e]] eqn:Hstep; [|reflexivity].
    apply IH. eapply update_section_inv; eassumption.
Qed.

End Merge.

(** The items of the copy refer to new objects other than the copy
    itself, when the configuration is not one of its own values. *)
Lemma copy_is_fresh (h : heap) (cfg : nat) (top top' : dict) :
  (forall k, assoc k top <> Some (CRef cfg)) ->
  items_copy_of (length h) (length h) cfg top top' ->
  forall k l, assoc k top' = Some (CRef l) -> length h <= l /\ l <> length h.
Proof.
  intros Hnoself Hcopy k l Hk.
  pose proof (items_copy_of_assoc _ _ _ _ _ k Hcopy) as H. rewrite Hk in H.
  destruct H as (v & Hv & Hcv). destruct v as [q|s| |l0]; cbn in Hcv;
    try discriminate.
  destruct Hcv as (y & [= ->] & Hge & Hself). split; [exact Hge|].
  intros ->. apply (Hnoself k). rewrite Hv. f_equal. f_equal. now apply Hself.
Qed.

Lemma merge_step_eq (h1 : heap) (inputs : nat) (overrides : list (string * cval)) :
  merge_step h1 inputs (Some overrides) = merge_overrides h1 inputs overrides.
Proof. destruct overrides; reflexivity. Qed.

(** C10, for a configuration that is not one of its own values.
    [generate_report] changes no dictionary that existed before
    the call, so [self.config] and every dictionary it refers to are
    after the call what they were before, whatever [user_overrides] is
    and whether the call returns or raises; and an override for a
    section that the configuration does not have changes neither the
    store nor the result.  For a configuration that holds itself, see
    [recursive_store] below. *)
Theorem generate_report_preserves_config (h : heap) (config : nat) (top : dict) :
  h !! config = Some top ->
  (forall k, assoc k top <> Some (CRef config)) ->
  (forall user_overrides h' result,
      generate_report h config user_overrides = (h', result) ->
      h' !! config = Some top
      /\ forall l, l < length h -> h' !! l = h !! l)
  /\ (forall before section data after,
        assoc section top = None ->
        generate_report h config (Some (before ++ (section, data) :: after))
        = generate_report h config (Some (before ++ after))).
Proof.
  intros Hcfg Hnoself.
  assert (Hdc : forall h1 memo v,
             deepcopy (S (length h)) h [] (CRef config) = Some (h1, memo, v) ->
             exists top',
               v = CRef (length h)
               /\ merge_inv h (length h) top' h1
               /\ (forall k l, assoc k top' = Some (CRef l) ->
                               length h <= l /\ l <> length h)
               /\ forall k, assoc k top = None -> assoc k top' = None).
  { intros h1 memo v Hrun.
    destruct (deepcopy_config _ _ _ _ _ _ _ Hcfg Hrun) as (top' & -> & Hli & Hold & Hcopy).
    exists top'. split; [reflexivity|]. split; [split; assumption|]. split.
    - eapply copy_is_fresh; eassumption.
    - intros k Hk. pose proof (items_copy_of_assoc _ _ _ _ _ k Hcopy) as H.
      destruct (assoc k top') as [v'|]; [|reflexivity].
      destruct H as (v & Hv & _). congruence. }
  split.
  - intros user_overrides h' result. unfold generate_report.
    destruct (deepcopy (S (length h)) h [] (CRef config)) as [[[h1 memo] v]|] eqn:Hrun.
    2:{ intros [= <- <-]. split; [exact Hcfg|reflexivity]. }
    destruct (Hdc _ _ _ eq_refl) as (top' & -> & Hinv & Hfresh & _).
    assert (Hmerge : forall h2 r, merge_step h1 (length h) user_overrides = (h2, r) ->
                                  merge_inv h (length h) top' h2).
    { intros h2 r. destruct user_overrides as [[|o overrides]|]; cbn [merge_step].
      - now intros [= <- <-].
      - eapply merge_overrides_inv; eassumption.
      - now intros [= <- <-]. }
    destruct (merge_step h1 (length h) user_overrides) as [h2 [[]|e]] eqn:Hm;
      intros [= <- <-]; destruct (Hmerge _ _ eq_refl) as [Hold _];
      (split; [rewrite Hold; [exact Hcfg|eapply lookup_lt_Some, Hcfg]|exact Hold]).
  - intros before section data after Hsec. unfold generate_report.
    destruct (deepcopy (S (length h)) h [] (CRef config)) as [[[h1 memo] v]|] eqn:Hrun;
      [|reflexivity].
    destruct (Hdc _ _ _ eq_refl) as (top' & -> & Hinv & Hfresh & Hkeys).
    rewrite !merge_step_eq.
    rewrite (merge_overrides_absent h (length h) top' Hfresh before after section data h1
               Hinv (Hkeys _ Hsec)).
    reflexivity.
Qed.

(** ** The traversal bound is enough *)

Lemma memo_get_None (l : nat) (memo : list (nat * nat)) :
  memo_get l memo = None -> ~ In l (map fst memo).
Proof.
  induction memo as [|[l' y] memo IH]; cbn [memo_get map fst In]; [tauto|].
  destruct (l =? l') eqn:E; [discriminate|].
  apply Nat.eqb_neq in E. intros H [Heq|Hin]; [congruence|now apply IH].
Qed.

Lemma keys_bounded (n : nat) (keys : list nat) :
  List.NoDup keys -> (forall k, In k keys -> k < n) -> length keys <= n.
Proof.
  intros Hnd Hlt.
  assert (H : length keys <= length (seq 0 n)).
  { apply List.NoDup_incl_length; [exact Hnd|].
    intros k Hk. apply List.in_seq. specialize (Hlt k Hk). lia. }
  now rewrite List.length_seq in H.
Qed.

Section Total.

Variable h0 : heap.
Hypothesis h0_closed : closed h0.

Lemma copy_items_total
    (copy : heap -> list (nat * nat) -> cval -> option (heap * list (nat * nat) * cval))
    (fuel : nat) :
  total_spec h0 copy fuel ->
  forall items h memo,
    (forall j, j < length h0 -> h !! j = h0 !! j) ->
    memo_keys_ok (length h0) memo ->
    Forall (fun kv => val_in (length h0) (snd kv)) items ->
    length h0 - length memo < fuel ->
    exists h' memo' items',
      copy_items copy h memo items = Some (h', memo', items')
      /\ (forall j, j < length h0 -> h' !! j = h0 !! j)
      /\ memo_keys_ok (length h0) memo'
      /\ length memo <= length memo'.
Proof using Type.
  intros Hcopy. induction items as [|[k v] rest IH];
    intros h memo Hold Hmemo Hitems Hfuel; cbn [copy_items].
  - exists h, memo, []. split_spec; auto.
  - inversion Hitems as [|? ? Hv Hrest]; subst. cbn [snd] in Hv.
    destruct (Hcopy h memo v Hold Hmemo Hv Hfuel)
      as (h1 & memo1 & v' & -> & Hold1 & Hmemo1 & Hlen1).
    destruct (IH h1 memo1 Hold1 Hmemo1 Hrest ltac:(lia))
      as (h2 & memo2 & rest' & -> & Hold2 & Hmemo2 & Hlen2).
    exists h2, memo2, ((k, v') :: rest'). split_spec; auto. lia.
Qed.

Lemma deepcopy_total (fuel : nat) : total_spec h0 (deepcopy fuel) fuel.
Proof using h0_closed.
  induction fuel as [|fuel IH]; intros h memo v Hold Hmemo Hv Hfuel; [lia|].
  destruct v as [q|s| |l];
    try (eexists _, _, _; split_spec; [reflexivity|auto..]; fail).
  cbn [deepcopy]. destruct (memo_get l memo) as [y|] eqn:Hy.
  { eexists _, _, _. split_spec; [reflexivity|auto..]. }
  cbn [val_in] in Hv.
  destruct (h0 !! l) as [x|] eqn:Hx;
    [|apply lookup_ge_None in Hx; lia].
  rewrite (Hold l Hv), Hx.
  destruct Hmemo as [Hnd Hlt].
  assert (Hmemo1 : memo_keys_ok (length h0) ((l, length h) :: memo)).
  { split; cbn [map fst].
    - constructor; [now apply memo_get_None|exact Hnd].
    - intros k [<-|Hk]; [exact Hv|now apply Hlt]. }
  assert (Hcount : S (length memo) <= length h0).
  { destruct Hmemo1 as [Hnd1 Hlt1].
    pose proof (keys_bounded _ _ Hnd1 Hlt1) as H.
    cbn [map length] in H. now rewrite length_map in H. }
  assert (Hlen : length h0 <= length h).
  { destruct (length h0) as [|n] eqn:En; [lia|].
    assert (Hn : n < S n) by lia.
    pose proof (Hold n Hn) as Hj.
    destruct (h0 !! n) as [d|] eqn:Hd;
      [|apply lookup_ge_None in Hd; lia].
    apply lookup_lt_Some in Hj. lia. }
  destruct (copy_items_total (deepcopy fuel) fuel IH x (h ++ [[]])
              ((l, length h) :: memo)) as (h2 & memo2 & items & -> & Hold2 & Hmemo2 & Hlen2).
  - intros j Hj. rewrite lookup_app_l by lia. apply Hold, Hj.
  - exact Hmemo1.
  - apply Forall_forall. intros [k v] Hin. apply list_elem_of_In in Hin.
    destruct v as [q|s| |l']; cbn; auto.
    eapply h0_closed; eassumption.
  - cbn [length]. lia.
  - eexists _, _, _. split_spec; [reflexivity| |exact Hmemo2|].
    + intros j Hj. rewrite list_lookup_insert_ne by lia. apply Hold2, Hj.
    + cbn [length] in Hlen2. lia.
Qed.

End Total.

(** On a store without dangling references the copy of the
    configuration is made: [generate_report] does not end in the
    [RecursionError] of the model. *)
Lemma generate_report_copies (h : heap) (config : nat) (top : dict) :
  closed h ->
  h !! config = Some top ->
  exists h1 memo inputs,
    deepcopy (S (length h)) h [] (CRef config) = Some (h1, memo, CRef inputs).
Proof.
  intros Hclosed Hcfg.
  destruct (deepcopy_total h Hclosed (S (length h)) h [] (CRef config))
    as (h1 & memo & v & Hrun & _).
  - reflexivity.
  - split; [constructor|intros k []].
  - eapply lookup_lt_Some, Hcfg.
  - cbn [length]. lia.
  - destruct (deepcopy_config _ _ _ _ _ _ _ Hcfg Hrun) as (top' & -> & _).
    eauto.
Qed.

(** The merge does write to the store: run on the configuration itself
    instead of its copy, it changes the dictionary of the section
    "factory".  The copy is what keeps the configuration as it was. *)
Lemma merge_on_the_original_changes_it :
  sample_store !! 0
    = Some [("wafers_per_day", CNum (inject_Z 1000));
            ("operating_days_per_month", CNum (inject_Z 30))]
  /\ fst (merge_overrides sample_store sample_config sample_overrides) !! 0
     = Some [("wafers_per_day", CNum (inject_Z 2000));
             ("operating_days_per_month", CNum (inject_Z 30))].
Proof. split; reflexivity. Qed.

(** The statement of C10 on the sample store: after a call with three
    overrides, one of them for the unknown section "marketing", the
    configuration and its section "factory" are unchanged, and the call
    gives what it gives without the unknown section. *)
Lemma generate_report_preserves_config_witness :
  fst (generate_report sample_store sample_config (Some sample_overrides))
    !! sample_config = sample_store !! sample_config
  /\ fst (generate_report sample_store sample_config (Some sample_overrides)) !! 0
     = sample_store !! 0
  /\ generate_report sample_store sample_config (Some sample_overrides)
     = generate_report sample_store sample_config
         (Some [("factory", CRef 6); ("costs", CRef 7)]).
Proof.
  assert (Hnoself : forall k,
             assoc k [("factory", CRef 0); ("manual_inspection", CRef 1);
                      ("ai_performance", CRef 2); ("costs", CRef 3);
                      ("formulas", CRef 4)] <> Some (CRef sample_config)).
  { intros k. cbn [assoc].
    repeat (destruct (String.eqb k _); [discriminate|]). discriminate. }
  destruct (generate_report_preserves_config sample_store sample_config _ eq_refl Hnoself)
    as [Hframe Habsent].
  destruct (Hframe (Some sample_overrides)
              (fst (generate_report sample_store sample_config (Some sample_overrides)))
              (snd (generate_report sample_store sample_config (Some sample_overrides))))
    as [Hcfg Hold]; [apply surjective_pairing|].
  split; [exact Hcfg|]. split.
  - apply Hold. cbn. lia.
  - apply (Habsent [("factory", CRef 6)] "marketing" (CRef 6) [("costs", CRef 7)]).
    reflexivity.
Defined.

(** C10 as it is stated, for every configuration, fails.  The
    configuration of [recursive_store] holds itself under "base", so its
    copy holds the copy there; the override for "base" is then merged
    into the top level of the copy and binds "factory" to the dictionary
    of the configuration itself, and the override for "factory" is
    written to that dictionary.  The call returns a report, and
    [self.config] has 2000 wafers per day where it had 1000. *)
Lemma generate_report_changes_recursive_config :
  (exists top,
      recursive_store !! recursive_config = Some top
      /\ assoc "base" top = Some (CRef recursive_config)
      /\ assoc "factory" top = Some (CRef 0))
  /\ getitem recursive_store (CRef 0) "wafers_per_day" = Ok (CNum (inject_Z 1000))
  /\ exists h' r,
       generate_report recursive_store recursive_config (Some recursive_overrides)
       = (h', Ok r)
       /\ getitem h' (CRef 0) "wafers_per_day" = Ok (CNum (inject_Z 2000))
       /\ ~ (forall l, l < length recursive_store -> h' !! l = recursive_store !! l).
Proof.
  split; [eexists; repeat split; reflexivity|]. split; [reflexivity|].
  eexists _, _. split; [vm_compute; reflexivity|]. split; [reflexivity|].
  intros H. specialize (H 0 ltac:(cbn; lia)). discriminate H.
Qed.

(** * Further properties of the loader *)

Local Open Scope Z_scope.

(** ** Insertion sort on distinct keys *)

Section InsertionSort.

Context {A : Type}.
Variable key : A -> Z.
Variable leb : A -> A -> bool.
Hypothesis leb_lt : forall a b, key a <> key b -> leb a b = true -> key a < key b.
Hypothesis leb_gt : forall a b, key a <> key b -> leb a b = false -> key b < key a.

Lemma insert_by_keys (x : A) (l : list A) (k : Z) :
  In k (map key (insert_by leb x l)) <-> k = key x \/ In k (map key l).
Proof using Type.
  rewrite !in_map_iff. split.
  - intros (y & <- & Hy). apply insert_by_In in Hy as [->|Hy]; eauto.
  - intros [->|(y & <- & Hy)].
    + exists x. split; [reflexivity|]. apply insert_by_In. now left.
    + exists y. split; [reflexivity|]. apply insert_by_In. now right.
Qed.

Lemma insert_by_sorted (x : A) (l : list A) :
  ~ In (key x) (map key l) ->
  StronglySorted Z.lt (map key l) ->
  StronglySorted Z.lt (map key (insert_by leb x l)).
Proof using leb_lt leb_gt.
  induction l as [|y l IH]; cbn [insert_by map In]; intros Hnot Hs.
  - repeat constructor.
  - apply StronglySorted_inv in Hs as [Hs Hall].
    assert (Hne : key x <> key y) by (intros E; apply Hnot; left; congruence).
    destruct (leb x y) eqn:Hleb; cbn [map].
    + apply leb_lt in Hleb; [|exact Hne].
      constructor; [constructor; assumption|].
      constructor; [exact Hleb|].
      eapply List.Forall_impl; [|exact Hall]. intros k Hk. cbn beta in Hk. lia.
    + apply leb_gt in Hleb; [|exact Hne].
      constructor; [apply IH; [tauto|exact Hs]|].
      apply List.Forall_forall. intros k Hk. apply insert_by_keys in Hk as [->|Hk].
      * exact Hleb.
      * rewrite List.Forall_forall in Hall. now apply Hall.
Qed.

Lemma sorted_by_keys (l : list A) (k : Z) :
  In k (map key (sorted_by leb l)) <-> In k (map key l).
Proof using Type.
  rewrite !in_map_iff. split; intros (y & <- & Hy); exists y;
    (split; [reflexivity|]); [now apply sorted_by_In in Hy|now apply sorted_by_In].
Qed.

Lemma sorted_by_sorted (l : list A) :
  List.NoDup (map key l) -> StronglySorted Z.lt (map key (sorted_by leb l)).
Proof using leb_lt leb_gt.
  unfold sorted_by. induction l as [|x l IH]; cbn [fold_right map]; intros Hnd.
  - constructor.
  - apply List.NoDup_cons_iff in Hnd as [Hnot Hnd].
    apply insert_by_sorted.
    + intros Hin. apply Hnot. apply (sorted_by_keys l) in Hin. exact Hin.
    + apply IH. exact Hnd.
Qed.

End InsertionSort.

Lemma pair_leb_lt (a b : Z * Z) : fst a <> fst b -> pair_leb a b = true -> fst a < fst b.
Proof.
  unfold pair_leb. intros Hne H.
  destruct (Z.ltb_spec (fst a) (fst b)); [assumption|].
  destruct (Z.eqb_spec (fst a) (fst b)); [contradiction|discriminate].
Qed.

Lemma pair_leb_gt (a b : Z * Z) : fst a <> fst b -> pair_leb a b = false -> fst b < fst a.
Proof.
  unfold pair_leb. intros Hne H.
  destruct (Z.ltb_spec (fst a) (fst b)); [discriminate|]. lia.
Qed.

(** ** The class distribution *)

Lemma Counter_NoDup (l : list Z) : List.NoDup (map fst (Counter l)).
Proof. unfold Counter. apply (Counter_fold l [] 0). constructor. Qed.

Lemma Counter_keys (l : list Z) (k : Z) : In k (map fst (Counter l)) <-> In k l.
Proof.
  unfold Counter.
  assert (H : forall c, In k (map fst (fold_left (fun c x => counter_incr x c) l c))
                        <-> In k l \/ In k (map fst c)).
  { induction l as [|x l IH]; intros c; cbn [fold_left In].
    - tauto.
    - rewrite IH, counter_incr_keys. intuition congruence. }
  rewrite H. cbn. tauto.
Qed.

Lemma counter_incr_sum (x : Z) (c : list (Z * Z)) :
  sum_Z (map snd (counter_incr x c)) = sum_Z (map snd c) + 1.
Proof.
  induction c as [|[k n] c IH]; cbn [counter_incr map snd sum_Z fold_right].
  - lia.
  - destruct (x =? k); cbn [map snd sum_Z fold_right]; [lia|].
    unfold sum_Z in IH. rewrite IH. lia.
Qed.

Lemma Counter_sum (l : list Z) : sum_Z (map snd (Counter l)) = Z.of_nat (length l).
Proof.
  unfold Counter.
  assert (H : forall c, sum_Z (map snd (fold_left (fun c x => counter_incr x c) l c))
                        = sum_Z (map snd c) + Z.of_nat (length l)).
  { induction l as [|x l IH]; intros c; cbn [fold_left length].
    - lia.
    - rewrite IH, counter_incr_sum. lia. }
  rewrite H. cbn. lia.
Qed.

Lemma insert_by_sum {A : Type} (f : A -> Z) (leb : A -> A -> bool) (x : A) (l : list A) :
  sum_Z (map f (insert_by leb x l)) = f x + sum_Z (map f l).
Proof.
  induction l as [|y l IH]; cbn [insert_by map sum_Z fold_right]; [reflexivity|].
  destruct (leb x y); cbn [map sum_Z fold_right]; [reflexivity|].
  unfold sum_Z in IH. rewrite IH. lia.
Qed.

Lemma sorted_by_sum {A : Type} (f : A -> Z) (leb : A -> A -> bool) (l : list A) :
  sum_Z (map f (sorted_by leb l)) = sum_Z (map f l).
Proof.
  unfold sorted_by. induction l as [|x l IH]; cbn [fold_right map]; [reflexivity|].
  rewrite insert_by_sum.
  change (sum_Z (f x :: map f l)) with (f x + sum_Z (map f l)).
  f_equal. exact IH.
Qed.

(** The rows are the items, one for one. *)
Lemma class_rows_inv (valid : Z) (items : list (Z * Z)) (rows : list ClassRow) :
  exc_map (class_row valid) items = Ok rows ->
  map cr_lbl rows = map fst items
  /\ map cr_count rows = map snd items
  /\ Forall (fun row => pct (cr_count row) valid = Ok (cr_pct row)
                        /\ cr_name row = inv_map_get (cr_lbl row)) rows.
Proof.
  revert rows. induction items as [|[lbl count] items IH]; intros rows;
    cbn [exc_map].
  - intros [= <-]. repeat split. constructor.
  - unfold class_row at 1.
    destruct (pct count valid) as [q|e] eqn:Hq; cbn [exc_bind]; [|discriminate].
    destruct (exc_map (class_row valid) items) as [rows0|e]; cbn [exc_bind];
      [|discriminate].
    intros [= <-]. destruct (IH rows0 eq_refl) as (Hl & Hc & Hall).
    cbn [map cr_lbl cr_count fst snd]. rewrite Hl, Hc. repeat split.
    constructor; [|exact Hall]. cbn. split; [exact Hq|reflexivity].
Qed.

(** What an [Ok] result of the whole function is made of. *)
Lemma load_wafer_dataset_inv (np_array : PyVal -> Exc NdArray)
    (py_str : PyVal -> Exc string) (path_exists : string -> bool)
    (read_pickle : string -> Exc (list Record)) (pkl_path : string) (out : Output) :
  load_wafer_dataset np_array py_str path_exists read_pickle pkl_path = Ok out ->
  exists data,
    read_pickle pkl_path = Ok data
    /\ summarize (process_records np_array py_str init_state data) = Ok (out_summary out)
    /\ out_images out = images (process_records np_array py_str init_state data)
    /\ out_labels out = labels (process_records np_array py_str init_state data)
    /\ out_metadata out = metadata_rows (process_records np_array py_str init_state data).
Proof.
  unfold load_wafer_dataset.
  destruct (path_exists pkl_path); cbn [negb]; [|discriminate].
  destruct (read_pickle pkl_path) as [data|e]; [|discriminate].
  destruct (summarize _) as [s|e] eqn:Hs; cbn [exc_bind]; [|discriminate].
  intros [= <-]. exists data. repeat split. exact Hs.
Qed.

(** X1. The counts of the printed class distribution add up to the
    number of returned images: every accepted sample is counted in one
    row. *)
Theorem class_counts_sum_to_accepted (np_array : PyVal -> Exc NdArray)
    (py_str : PyVal -> Exc string) (path_exists : string -> bool)
    (read_pickle : string -> Exc (list Record)) (pkl_path : string) (out : Output) :
  load_wafer_dataset np_array py_str path_exists read_pickle pkl_path = Ok out ->
  sum_Z (map cr_count (class_rows (out_summary out)))
  = Z.of_nat (length (out_images out)).
Proof.
  intros Hload.
  destruct (load_wafer_dataset_inv _ _ _ _ _ _ Hload) as (data & _ & Hs & Hi & _).
  destruct (summarize_inv _ _ Hs) as (ext & _ & _ & _ & Hrows).
  apply class_rows_inv in Hrows as (_ & Hc & _).
  rewrite Hc, sorted_by_sum, Counter_sum, Hi.
  pose proof (process_records_inv np_array py_str aligned
                (process_record_aligned np_array py_str) data init_state
                init_state_aligned) as (Hlen & _).
  now rewrite Hlen.
Qed.

Lemma class_counts_sum_to_accepted_witness :
  exists out,
    load_wafer_dataset np_array_sample py_str_sample sample_exists sample_pickle
      "LSWMD.pkl" = Ok out
    /\ sum_Z (map cr_count (class_rows (out_summary out))) = 2.
Proof.
  eexists. split; [reflexivity|].
  apply (class_counts_sum_to_accepted np_array_sample py_str_sample sample_exists
           sample_pickle "LSWMD.pkl"). reflexivity.
Defined.

(** X3. The printed class distribution has one row for each class that
    occurs among the returned labels and no other row, in strictly
    ascending order of the class id. *)
Theorem class_rows_are_sorted_and_complete (np_array : PyVal -> Exc NdArray)
    (py_str : PyVal -> Exc string) (path_exists : string -> bool)
    (read_pickle : string -> Exc (list Record)) (pkl_path : string) (out : Output) :
  load_wafer_dataset np_array py_str path_exists read_pickle pkl_path = Ok out ->
  StronglySorted Z.lt (map cr_lbl (class_rows (out_summary out)))
  /\ forall lbl,
       In lbl (map cr_lbl (class_rows (out_summary out))) <-> In lbl (out_labels out).
Proof.
  intros Hload.
  destruct (load_wafer_dataset_inv _ _ _ _ _ _ Hload) as (data & _ & Hs & _ & Hl & _).
  destruct (summarize_inv _ _ Hs) as (ext & _ & _ & _ & Hrows).
  apply class_rows_inv in Hrows as (Hlbl & _ & _). rewrite Hlbl, Hl. split.
  - apply (sorted_by_sorted fst pair_leb pair_leb_lt pair_leb_gt), Counter_NoDup.
  - intros lbl. rewrite (sorted_by_keys fst pair_leb). apply Counter_keys.
Qed.

Lemma class_rows_are_sorted_and_complete_witness :
  exists out,
    load_wafer_dataset np_array_sample py_str_sample sample_exists sample_pickle
      "LSWMD.pkl" = Ok out
    /\ StronglySorted Z.lt (map cr_lbl (class_rows (out_summary out)))
    /\ (In 1 (map cr_lbl (class_rows (out_summary out))) <-> In 1 (out_labels out)).
Proof.
  eexists. split; [reflexivity|].
  destruct (class_rows_are_sorted_and_complete np_array_sample py_str_sample
              sample_exists sample_pickle "LSWMD.pkl" _ eq_refl) as [Hsorted Hin].
  split; [exact Hsorted|apply Hin].
Defined.

(** ** The extrema of the image dimensions *)

Lemma fold_left_min_spec (l : list Z) (x : Z) :
  fold_left Z.min l x <= x
  /\ (forall y, In y l -> fold_left Z.min l x <= y)
  /\ In (fold_left Z.min l x) (x :: l).
Proof.
  revert x. induction l as [|a l IH]; intros x; cbn [fold_left].
  - repeat split; [lia|intros y []|now left].
  - destruct (IH (Z.min x a)) as (H1 & H2 & H3). repeat split.
    + lia.
    + intros y [<-|Hy]; [lia|now apply H2].
    + destruct H3 as [H3|H3]; [|now right; right].
      rewrite <- H3. destruct (Z.min_spec x a) as [[_ ->]|[_ ->]];
        [now left|now right; left].
Qed.

Lemma fold_left_max_spec (l : list Z) (x : Z) :
  x <= fold_left Z.max l x
  /\ (forall y, In y l -> y <= fold_left Z.max l x)
  /\ In (fold_left Z.max l x) (x :: l).
Proof.
  revert x. induction l as [|a l IH]; intros x; cbn [fold_left].
  - repeat split; [lia|intros y []|now left].
  - destruct (IH (Z.max x a)) as (H1 & H2 & H3). repeat split.
    + lia.
    + intros y [<-|Hy]; [lia|now apply H2].
    + destruct H3 as [H3|H3]; [|now right; right].
      rewrite <- H3. destruct (Z.max_spec x a) as [[_ ->]|[_ ->]];
        [now right; left|now left].
Qed.

Lemma py_min_spec (l : list Z) (m : Z) :
  py_min l = Ok m -> In m l /\ forall y, In y l -> m <= y.
Proof.
  destruct l as [|x l]; cbn [py_min]; [discriminate|]. intros [= <-].
  destruct (fold_left_min_spec l x) as (H1 & H2 & H3). split; [exact H3|].
  intros y [<-|Hy]; [exact H1|now apply H2].
Qed.

Lemma py_max_spec (l : list Z) (m : Z) :
  py_max l = Ok m -> In m l /\ forall y, In y l -> y <= m.
Proof.
  destruct l as [|x l]; cbn [py_max]; [discriminate|]. intros [= <-].
  destruct (fold_left_max_spec l x) as (H1 & H2 & H3). split; [exact H3|].
  intros y [<-|Hy]; [exact H1|now apply H2].
Qed.

Lemma exc_map_In_l {A B : Type} (f : A -> Exc B) (l : list A) (ys : list B) (x : A) :
  exc_map f l = Ok ys -> In x l -> exists y, In y ys /\ f x = Ok y.
Proof.
  revert ys. induction l as [|a l IH]; cbn [exc_map]; intros ys Hrun Hin; [destruct Hin|].
  destruct (f a) as [y0|e] eqn:Ha; cbn [exc_bind] in Hrun; [|discriminate].
  destruct (exc_map f l) as [ys0|e]; cbn [exc_bind] in Hrun; [|discriminate].
  injection Hrun as <-. destruct Hin as [<-|Hin].
  - exists y0. split; [now left|exact Ha].
  - destruct (IH ys0 eq_refl Hin) as (y & Hy & Hf). exists y. split; [now right|exact Hf].
Qed.

Lemma dimension_extrema_inv (imgs : list NdArray) (a b c d : Z) :
  imgs <> [] ->
  dimension_extrema imgs = Ok (a, b, c, d) ->
  exists hs ws,
    exc_map (fun img => shape_at img 0) imgs = Ok hs
    /\ exc_map (fun img => shape_at img 1) imgs = Ok ws
    /\ py_min hs = Ok a /\ py_max hs = Ok b
    /\ py_min ws = Ok c /\ py_max ws = Ok d.
Proof.
  intros Hne. unfold dimension_extrema.
  destruct (Z.of_nat (length imgs) >? 0) eqn:Hpos.
  2:{ destruct imgs; [congruence|]. discriminate Hpos. }
  destruct (exc_map (fun img => shape_at img 0) imgs) as [hs|e]; cbn [exc_bind];
    [|discriminate].
  destruct (exc_map (fun img => shape_at img 1) imgs) as [ws|e]; cbn [exc_bind];
    [|discriminate].
  destruct (py_min hs) as [a'|e] eqn:Ha; cbn [exc_bind]; [|discriminate].
  destruct (py_max hs) as [b'|e] eqn:Hb; cbn [exc_bind]; [|discriminate].
  destruct (py_min ws) as [c'|e] eqn:Hc; cbn [exc_bind]; [|discriminate].
  destruct (py_max ws) as [d'|e] eqn:Hd; cbn [exc_bind]; [|discriminate].
  intros [= <- <- <- <-]. exists hs, ws. auto 10.
Qed.

(** X4. The printed extrema bound the dimensions of every returned
    image, and each of them is the height or the width of some returned
    image. *)
Theorem extrema_bound_every_image (np_array : PyVal -> Exc NdArray)
    (py_str : PyVal -> Exc string) (path_exists : string -> bool)
    (read_pickle : string -> Exc (list Record)) (pkl_path : string) (out : Output) :
  load_wafer_dataset np_array py_str path_exists read_pickle pkl_path = Ok out ->
  out_images out <> [] ->
  (forall img,
      In img (out_images out) ->
      exists h w,
        shape_at img 0 = Ok h /\ shape_at img 1 = Ok w
        /\ h_min (out_summary out) <= h <= h_max (out_summary out)
        /\ w_min (out_summary out) <= w <= w_max (out_summary out))
  /\ (exists img, In img (out_images out)
                  /\ shape_at img 0 = Ok (h_min (out_summary out)))
  /\ (exists img, In img (out_images out)
                  /\ shape_at img 0 = Ok (h_max (out_summary out)))
  /\ (exists img, In img (out_images out)
                  /\ shape_at img 1 = Ok (w_min (out_summary out)))
  /\ (exists img, In img (out_images out)
                  /\ shape_at img 1 = Ok (w_max (out_summary out))).
Proof.
  intros Hload Hne.
  destruct (load_wafer_dataset_inv _ _ _ _ _ _ Hload) as (data & _ & Hs & Hi & _).
  destruct (summarize_inv _ _ Hs) as ([[[a b] c] d] & Hext & H4 & _ & _).
  injection H4 as -> -> -> ->. rewrite <- Hi in Hext.
  destruct (dimension_extrema_inv _ _ _ _ _ Hne Hext)
    as (hs & ws & Hhs & Hws & Ha & Hb & Hc & Hd).
  apply py_min_spec in Ha as [Ha1 Ha2]. apply py_max_spec in Hb as [Hb1 Hb2].
  apply py_min_spec in Hc as [Hc1 Hc2]. apply py_max_spec in Hd as [Hd1 Hd2].
  split; [|repeat split].
  - intros img Himg.
    destruct (exc_map_In_l _ _ _ _ Hhs Himg) as (h & Hh & Hsh).
    destruct (exc_map_In_l _ _ _ _ Hws Himg) as (w & Hw & Hsw).
    exists h, w. repeat split; auto.
  - destruct (exc_map_In _ _ _ _ Hhs Ha1) as (img & ? & ?). eauto.
  - destruct (exc_map_In _ _ _ _ Hhs Hb1) as (img & ? & ?). eauto.
  - destruct (exc_map_In _ _ _ _ Hws Hc1) as (img & ? & ?). eauto.
  - destruct (exc_map_In _ _ _ _ Hws Hd1) as (img & ? & ?). eauto.
Qed.

Lemma extrema_bound_every_image_witness :
  exists out,
    load_wafer_dataset np_array_sample py_str_sample sample_exists sample_pickle
      "LSWMD.pkl" = Ok out
    /\ exists img, In img (out_images out)
                   /\ shape_at img 0 = Ok (h_min (out_summary out)).
Proof.
  eexists. split; [reflexivity|].
  apply (extrema_bound_every_image np_array_sample py_str_sample sample_exists
           sample_pickle "LSWMD.pkl"); [reflexivity|discriminate].
Defined.

(** ** The warning about missing classes *)

Lemma existsb_eqb_In (x : Z) (l : list Z) : existsb (Z.eqb x) l = true <-> In x l.
Proof.
  rewrite existsb_exists. split.
  - intros (y & Hy & E). apply Z.eqb_eq in E. now subst.
  - intros H. exists x. split; [exact H|apply Z.eqb_refl].
Qed.

Lemma py_set_In (l : list Z) (x : Z) : In x (py_set l) <-> In x l.
Proof.
  induction l as [|a l IH]; cbn [py_set In]; [tauto|].
  destruct (existsb (Z.eqb a) l) eqn:E; cbn [In]; rewrite IH.
  - apply existsb_eqb_In in E. intuition congruence.
  - tauto.
Qed.

Lemma py_set_NoDup (l : list Z) : List.NoDup (py_set l).
Proof.
  induction l as [|a l IH]; cbn [py_set]; [constructor|].
  destruct (existsb (Z.eqb a) l) eqn:E; [exact IH|].
  constructor; [|exact IH]. rewrite py_set_In. intros H.
  apply existsb_eqb_In in H. congruence.
Qed.

(** Two strictly ascending lists with the same elements are equal. *)
Lemma strictly_sorted_ext (l1 l2 : list Z) :
  StronglySorted Z.lt l1 -> StronglySorted Z.lt l2 ->
  (forall x, In x l1 <-> In x l2) -> l1 = l2.
Proof.
  revert l2. induction l1 as [|a l1 IH]; intros l2 H1 H2 Hext.
  - destruct l2 as [|b l2]; [reflexivity|]. exfalso. apply (Hext b). now left.
  - destruct l2 as [|b l2]; [exfalso; apply (Hext a); now left|].
    apply StronglySorted_inv in H1 as [H1 Ha]. apply StronglySorted_inv in H2 as [H2 Hb].
    rewrite List.Forall_forall in Ha, Hb.
    assert (a = b) as <-.
    { destruct (proj1 (Hext a) (or_introl eq_refl)) as [E|Hin]; [now symmetry|].
      destruct (proj2 (Hext b) (or_introl eq_refl)) as [E|Hin']; [exact E|].
      specialize (Ha _ Hin'). specialize (Hb _ Hin). lia. }
    f_equal. apply IH; [exact H1|exact H2|]. intros x. split; intros Hx.
    + destruct (proj1 (Hext x) (or_intror Hx)) as [E|Hin]; [|exact Hin].
      specialize (Ha _ Hx). lia.
    + destruct (proj2 (Hext x) (or_intror Hx)) as [E|Hin]; [|exact Hin].
      specialize (Hb _ Hx). lia.
Qed.

Lemma unique_labels_spec (labels : list Z) :
  StronglySorted Z.lt (sorted_by Z.leb (py_set labels))
  /\ forall x, In x (sorted_by Z.leb (py_set labels)) <-> In x labels.
Proof.
  split.
  - rewrite <- (map_id (sorted_by Z.leb (py_set labels))).
    apply (sorted_by_sorted (fun x => x) Z.leb).
    + intros a b Hne H. apply Z.leb_le in H. lia.
    + intros a b Hne H. apply Z.leb_gt in H. lia.
    + rewrite map_id. apply py_set_NoDup.
  - intros x. rewrite sorted_by_In. apply py_set_In.
Qed.

Lemma expected_classes_In (c : Z) : In c expected_classes <-> 0 <= c <= 8.
Proof.
  unfold expected_classes. cbn [In]. split.
  - intuition lia.
  - intros H.
    assert (c = 0 \/ c = 1 \/ c = 2 \/ c = 3 \/ c = 4 \/ c = 5 \/ c = 6 \/ c = 7 \/ c = 8)
      by lia.
    intuition congruence.
Qed.

Lemma expected_classes_sorted : StronglySorted Z.lt expected_classes.
Proof.
  unfold expected_classes.
  repeat (constructor; [|repeat (constructor; [lia|]); constructor]). constructor.
Qed.

(** The warning of lines 145-149, for labels of the taxonomy. *)
Lemma missing_classes_spec (labels : list Z) :
  Forall (fun lbl => 0 <= lbl <= 8) labels ->
  match missing_classes labels with
  | None => forall c, 0 <= c <= 8 -> In c labels
  | Some missing =>
      missing <> []
      /\ forall c, In c missing <-> (0 <= c <= 8 /\ ~ In c labels)
  end.
Proof.
  intros Hvalid. unfold missing_classes, list_Z_eqb.
  destruct (unique_labels_spec labels) as [Hsorted Hin].
  set (u := sorted_by Z.leb (py_set labels)) in *.
  destruct (bool_decide (u = expected_classes)) eqn:E.
  - apply bool_decide_eq_true in E. intros c Hc.
    apply Hin. rewrite E. now apply expected_classes_In.
  - apply bool_decide_eq_false in E.
    assert (Hm : forall c,
               In c (List.filter (fun c => negb (existsb (Z.eqb c) u)) expected_classes)
               <-> (0 <= c <= 8 /\ ~ In c labels)).
    { intros c. rewrite filter_In, expected_classes_In, <- Hin, <- existsb_eqb_In.
      destruct (existsb (Z.eqb c) u); cbn [negb]; intuition congruence. }
    split; [|exact Hm]. intros Hnil. apply E.
    apply strictly_sorted_ext; [exact Hsorted|exact expected_classes_sorted|].
    intros x. rewrite Hin, expected_classes_In. split.
    + rewrite List.Forall_forall in Hvalid. apply Hvalid.
    + intros Hx. destruct (in_dec Z.eq_dec x labels) as [Hl|Hl]; [exact Hl|].
      exfalso. assert (Hx' : In x []) by (rewrite <- Hnil; apply Hm; tauto).
      destruct Hx'.
Qed.

(** X5. No warning is printed exactly when each of the nine classes
    occurs among the returned labels; otherwise the warning names the
    classes 0 to 8 that do not occur, and names at least one. *)
Theorem warning_names_the_missing_classes (np_array : PyVal -> Exc NdArray)
    (py_str : PyVal -> Exc string) (path_exists : string -> bool)
    (read_pickle : string -> Exc (list Record)) (pkl_path : string) (out : Output) :
  load_wafer_dataset np_array py_str path_exists read_pickle pkl_path = Ok out ->
  match warning (out_summary out) with
  | None => forall c, 0 <= c <= 8 -> In c (out_labels out)
  | Some missing =>
      missing <> []
      /\ forall c, In c missing <-> (0 <= c <= 8 /\ ~ In c (out_labels out))
  end.
Proof.
  intros Hload.
  destruct (load_wafer_dataset_inv _ _ _ _ _ _ Hload) as (data & _ & Hs & _ & Hl & _).
  assert (Hw : warning (out_summary out) = missing_classes (out_labels out)).
  { rewrite Hl. unfold summarize in Hs.
    destruct (dimension_extrema _) as [[[[a b] c] d]|e]; cbn [exc_bind] in Hs;
      [|discriminate].
    destruct (exc_map _ _) as [rows|e]; cbn [exc_bind] in Hs; [|discriminate].
    injection Hs as <-. reflexivity. }
  rewrite Hw. apply missing_classes_spec. rewrite Hl.
  apply (process_records_inv np_array py_str valid_samples
           (process_record_valid np_array py_str) data init_state init_state_valid).
Qed.

Lemma warning_names_the_missing_classes_witness :
  exists out missing,
    load_wafer_dataset np_array_sample py_str_sample sample_exists sample_pickle
      "LSWMD.pkl" = Ok out
    /\ warning (out_summary out) = Some missing
    /\ (In 5 missing <-> (0 <= 5 <= 8 /\ ~ In 5 (out_labels out))).
Proof.
  eexists _, _. split; [reflexivity|]. split; [reflexivity|].
  pose proof (warning_names_the_missing_classes np_array_sample py_str_sample
                sample_exists sample_pickle "LSWMD.pkl" _ eq_refl) as H.
  cbn [warning out_summary] in H. apply H.
Defined.

(** ** One iteration, by the shape and the fields of the record *)

Section RecordShapes.

Variable np_array : PyVal -> Exc NdArray.
Variable py_str : PyVal -> Exc string.

Abbreviation record_body := (record_body np_array py_str).
Abbreviation process_record := (process_record np_array py_str).
Abbreviation process_records := (process_records np_array py_str).

(** The iteration uses the record through its fields only. *)
Lemma process_record_fields (st : State) (r1 r2 : Record) :
  extract_fields r1 = extract_fields r2 ->
  process_record st r1 = process_record st r2.
Proof.
  intros H. unfold process_record, record_body, st_bind, st_lift. now rewrite H.
Qed.

Lemma process_record_no_fields (st : State) (record : Record) (e : exn) :
  extract_fields record = Raise e -> process_record st record = skips st.
Proof.
  intros H. unfold process_record, record_body, st_bind, st_lift. now rewrite H.
Qed.

Lemma process_record_none (st : State) (record : Record) (fields : Fields) :
  extract_fields record = Ok fields ->
  is_None (f_wafer_map fields) || is_None (f_failure_type fields) = true ->
  process_record st record = skips st.
Proof.
  intros H Hn. unfold process_record, record_body, st_bind, st_lift.
  now rewrite H, Hn.
Qed.

(** A tuple is read like a dictionary, unless it has the attribute
    [waferMap] and lacks [failureType]: then [record.failureType] raises. *)
Lemma extract_fields_tuple (fields : list (string * PyVal)) :
  (extract_fields (RTuple fields) = Raise AttributeError
   /\ assoc "failureType" fields = None)
  \/ extract_fields (RTuple fields) = extract_fields (RDict fields).
Proof.
  cbn [extract_fields]. unfold hasattr, getattr, getattr_default, dict_get.
  destruct (assoc "waferMap" fields) as [wm|]; [|now right].
  destruct (assoc "failureType" fields) as [ft|]; [now right|now left].
Qed.

(** X6. The way a record is read does not change what becomes of it: a
    tuple with named fields, a dictionary and an object that hold the
    same values under the same names are all accepted with the same
    sample, or all skipped. *)
Theorem record_shape_does_not_matter (st : State) (fields : list (string * PyVal)) :
  process_record st (RTuple fields) = process_record st (RDict fields)
  /\ process_record st (RObject fields) = process_record st (RDict fields).
Proof.
  split; [|apply process_record_fields; reflexivity].
  destruct (extract_fields_tuple fields) as [[Hraise Hft]|Hsame].
  - rewrite (process_record_no_fields st _ _ Hraise). symmetry.
    eapply process_record_none; [reflexivity|].
    cbn [f_wafer_map f_failure_type]. unfold dict_get at 2. rewrite Hft.
    apply orb_true_r.
  - now apply process_record_fields.
Qed.

(** X7. A record that has no wafer map or no failure type, or has
    [None] for one of them, is skipped, in each of the three shapes of a
    record. *)
Theorem record_without_map_or_label_is_skipped (st : State)
    (fields : list (string * PyVal)) (record : Record) :
  In record (record_shapes fields) ->
  dict_get fields "waferMap" VNone = VNone
  \/ dict_get fields "failureType" VNone = VNone ->
  process_record st record = skips st.
Proof.
  intros Hshape Hmissing.
  assert (Hdict : forall r, extract_fields r = extract_fields (RDict fields) ->
                            process_record st r = skips st).
  { intros r Hr. eapply process_record_none; [rewrite Hr; reflexivity|].
    cbn [f_wafer_map f_failure_type].
    destruct Hmissing as [->| ->]; [reflexivity|apply orb_true_r]. }
  destruct Hshape as [<-|[<-|[<-|[]]]].
  - destruct (extract_fields_tuple fields) as [[Hraise _]|Hsame].
    + eapply process_record_no_fields, Hraise.
    + apply Hdict, Hsame.
  - apply Hdict. reflexivity.
  - apply Hdict. reflexivity.
Qed.

(** ** The metadata rows and the printed names *)

Lemma class_map_inverse (s : string) (k : Z) :
  assoc s class_map = Some k -> inv_map_get k = s.
Proof.
  unfold class_map; cbn [assoc].
  repeat match goal with
         | |- context [String.eqb s ?x] =>
             destruct (String.eqb_spec s x); [intros [= <-]; subst; reflexivity|]
         end.
  discriminate.
Qed.

Lemma inv_map_get_label (k : Z) :
  0 <= k <= 8 -> assoc (inv_map_get k) class_map = Some k.
Proof.
  intros H.
  assert (k = 0 \/ k = 1 \/ k = 2 \/ k = 3 \/ k = 4 \/ k = 5 \/ k = 6 \/ k = 7 \/ k = 8)
    as Hk by lia.
  repeat (destruct Hk as [->|Hk]; [reflexivity|]). subst. reflexivity.
Qed.

Lemma process_record_rows (st : State) (record : Record) :
  Forall (fun row => assoc (failureType row) class_map = Some (mapped_label row))
    (metadata_rows st) ->
  Forall (fun row => assoc (failureType row) class_map = Some (mapped_label row))
    (metadata_rows (process_record st record)).
Proof.
  intros H.
  destruct (process_record_cases np_array py_str st record)
    as [E|(f & img & l & k & _ & _ & _ & _ & Hk & E)]; rewrite E;
    unfold skips, accepts; cbn [metadata_rows]; [exact H|].
  apply Forall_app. split; [exact H|]. constructor; [exact Hk|constructor].
Qed.

(** ** Archives one after the other *)

Lemma state_app_init (st : State) : state_app st init_state = st.
Proof.
  destruct st as [i l m k]. unfold state_app, init_state. cbn.
  rewrite !app_nil_r. f_equal. lia.
Qed.

Lemma state_app_assoc (a b c : State) :
  state_app (state_app a b) c = state_app a (state_app b c).
Proof.
  unfold state_app. cbn. rewrite <- !app_assoc. f_equal. lia.
Qed.

(** What one iteration adds does not depend on what was accumulated. *)
Lemma process_record_state_app (st : State) (record : Record) :
  process_record st record = state_app st (process_record init_state record).
Proof.
  unfold process_record, record_body, st_bind, st_lift.
  destruct (extract_fields record) as [fields|e].
  2:{ unfold state_app, incr_skipped. cbn. rewrite !app_nil_r. reflexivity. }
  destruct (is_None (f_wafer_map fields) || is_None (f_failure_type fields)).
  { unfold state_app, incr_skipped. cbn. rewrite !app_nil_r. reflexivity. }
  destruct (np_array (f_wafer_map fields)) as [img|e].
  2:{ unfold state_app, incr_skipped. cbn. rewrite !app_nil_r. reflexivity. }
  destruct (negb (ndim img =? 2)).
  { unfold state_app, incr_skipped. cbn. rewrite !app_nil_r. reflexivity. }
  destruct (stripped_label py_str (f_failure_type fields)) as [[f_label|]|e];
    try (unfold state_app, incr_skipped; cbn; rewrite !app_nil_r; reflexivity).
  destruct (assoc f_label class_map) as [k|];
    [|unfold state_app, incr_skipped; cbn; rewrite !app_nil_r; reflexivity].
  unfold state_app, append_image, append_label, append_row. cbn. f_equal. lia.
Qed.

Lemma process_records_state_app (data : list Record) (st : State) :
  process_records st data = state_app st (process_records init_state data).
Proof.
  revert st. induction data as [|record data IH]; intros st.
  - cbn. now rewrite state_app_init.
  - change (process_records st (record :: data))
      with (process_records (process_record st record) data).
    change (process_records init_state (record :: data))
      with (process_records (process_record init_state record) data).
    rewrite IH, (IH (process_record init_state record)), <- state_app_assoc.
    now rewrite <- process_record_state_app.
Qed.

(** X9. Processing two archives one after the other gives the samples
    of the first followed by the samples of the second, and the sum of
    the two skipped counts: the records are handled independently and
    in their order. *)
Theorem process_records_of_concatenation (data1 data2 : list Record) :
  process_records init_state (data1 ++ data2)
  = state_app (process_records init_state data1) (process_records init_state data2).
Proof.
  rewrite process_records_app. apply process_records_state_app.
Qed.

(** ** Whitespace around a label *)

Lemma rstrip_idempotent (s : string) : rstrip (rstrip s) = rstrip s.
Proof.
  induction s as [|c s IH]; [reflexivity|]. cbn [rstrip].
  destruct (rstrip s) as [|c' r] eqn:Hr.
  - destruct (py_isspace c) eqn:Hc; [reflexivity|]. cbn [rstrip]. now rewrite Hc.
  - cbn [rstrip]. cbn [rstrip] in IH. rewrite IH. reflexivity.
Qed.

Lemma rstrip_nonspace (c : ascii) (s : string) :
  py_isspace c = false -> rstrip (String c s) = String c (rstrip s).
Proof.
  intros Hc. cbn [rstrip]. destruct (rstrip s); [now rewrite Hc|reflexivity].
Qed.

Lemma lstrip_head (s : string) :
  lstrip s = EmptyString
  \/ exists c t, lstrip s = String c t /\ py_isspace c = false.
Proof.
  induction s as [|c s IH]; [now left|]. cbn [lstrip].
  destruct (py_isspace c) eqn:Hc; [exact IH|]. right. eauto.
Qed.

Lemma strip_idempotent (s : string) : strip (strip s) = strip s.
Proof.
  unfold strip. destruct (lstrip_head s) as [->|(c & t & -> & Hc)]; [reflexivity|].
  rewrite rstrip_nonspace by exact Hc. cbn [lstrip]. rewrite Hc.
  rewrite <- rstrip_nonspace by exact Hc. apply rstrip_idempotent.
Qed.

(** The iteration uses the failure type through its stripped label and
    through the test for [None]. *)
Lemma process_record_label (st : State) (r1 r2 : Record) (f1 f2 : Fields) :
  extract_fields r1 = Ok f1 ->
  extract_fields r2 = Ok f2 ->
  f_wafer_map f1 = f_wafer_map f2 ->
  f_lot_name f1 = f_lot_name f2 ->
  f_wafer_index f1 = f_wafer_index f2 ->
  is_None (f_failure_type f1) = is_None (f_failure_type f2) ->
  stripped_label py_str (f_failure_type f1) = stripped_label py_str (f_failure_type f2) ->
  process_record st r1 = process_record st r2.
Proof.
  intros H1 H2 Hw Hl Hi Hn Hs.
  unfold process_record, record_body, st_bind, st_lift.
  now rewrite H1, H2, Hw, Hl, Hi, Hn, Hs.
Qed.

(** X10. Whitespace around a label that is a string does not matter: the
    record with the padded label and the record with the stripped label
    give the same sample, or are both skipped, whatever the shape of
    the record and its other fields. *)
Theorem padded_label_is_as_stripped (st : State) (shape : list (string * PyVal) -> Record)
    (rest : list (string * PyVal)) (s : string) :
  In shape [RTuple; RDict; RObject] ->
  process_record st (shape (("failureType", VStr s) :: rest))
  = process_record st (shape (("failureType", VStr (strip s)) :: rest)).
Proof.
  assert (Hlabel : stripped_label py_str (VStr s) = stripped_label py_str (VStr (strip s))).
  { unfold stripped_label. cbn. now rewrite strip_idempotent. }
  intros [<-|[<-|[<-|[]]]].
  - cbn [extract_fields]. unfold process_record, record_body, st_bind, st_lift.
    cbn [extract_fields]. unfold hasattr, getattr, getattr_default, dict_get.
    cbn [assoc String.eqb Ascii.eqb Bool.eqb].
    destruct (assoc "waferMap" rest) as [wm|]; cbn [exc_bind f_wafer_map f_failure_type];
      cbn [is_None]; rewrite ?Hlabel; reflexivity.
  - eapply process_record_label; try reflexivity. exact Hlabel.
  - eapply process_record_label; try reflexivity. exact Hlabel.
Qed.

End RecordShapes.

Lemma record_without_map_or_label_is_skipped_witness :
  process_record np_array_sample py_str_sample init_state
    (RTuple [("waferMap", sample_map)])
  = skips init_state.
Proof.
  apply (record_without_map_or_label_is_skipped np_array_sample py_str_sample
           init_state [("waferMap", sample_map)]).
  - cbn. tauto.
  - right. reflexivity.
Defined.

(** X8. Every returned metadata row carries a name of the taxonomy with
    its class id, the inverse table gives the name back from the id,
    and every row of the printed class distribution is printed with the
    name of its class, never with "Unknown". *)
Theorem rows_carry_taxonomy_names (np_array : PyVal -> Exc NdArray)
    (py_str : PyVal -> Exc string) (path_exists : string -> bool)
    (read_pickle : string -> Exc (list Record)) (pkl_path : string) (out : Output) :
  load_wafer_dataset np_array py_str path_exists read_pickle pkl_path = Ok out ->
  Forall (fun row => assoc (failureType row) class_map = Some (mapped_label row)
                     /\ inv_map_get (mapped_label row) = failureType row)
    (out_metadata out)
  /\ Forall (fun row => assoc (cr_name row) class_map = Some (cr_lbl row)
                        /\ cr_name row <> "Unknown")
       (class_rows (out_summary out)).
Proof.
  intros Hload.
  destruct (load_wafer_dataset_inv _ _ _ _ _ _ Hload) as (data & _ & Hs & _ & Hl & Hm).
  split.
  - rewrite Hm.
    eapply List.Forall_impl;
      [|apply (process_records_inv np_array py_str
                 (fun st => Forall (fun row => assoc (failureType row) class_map
                                               = Some (mapped_label row))
                              (metadata_rows st))
                 (fun st r => process_record_rows np_array py_str st r) data init_state);
        constructor].
    intros row Hrow. cbn beta in Hrow. split; [exact Hrow|now apply class_map_inverse].
  - destruct (summarize_inv _ _ Hs) as (ext & _ & _ & _ & Hrows).
    pose proof (class_rows_inv _ _ _ Hrows) as (Hlbl & _ & Hall).
    pose proof (process_records_inv np_array py_str valid_samples
                  (process_record_valid np_array py_str) data init_state
                  init_state_valid) as [Hvalid _].
    rewrite List.Forall_forall in Hvalid.
    apply List.Forall_forall. intros row Hin.
    rewrite List.Forall_forall in Hall. destruct (Hall row Hin) as [_ Hname].
    assert (Hrange : 0 <= cr_lbl row <= 8).
    { apply Hvalid. apply Counter_keys. apply (sorted_by_keys fst pair_leb).
      rewrite <- Hlbl. now apply in_map. }
    rewrite Hname. split; [now apply inv_map_get_label|].
    intros E. pose proof (inv_map_get_label _ Hrange) as H. rewrite E in H.
    discriminate H.
Qed.

Lemma rows_carry_taxonomy_names_witness :
  exists out,
    load_wafer_dataset np_array_sample py_str_sample sample_exists sample_pickle
      "LSWMD.pkl" = Ok out
    /\ Forall (fun row => assoc (cr_name row) class_map = Some (cr_lbl row)
                          /\ cr_name row <> "Unknown")
         (class_rows (out_summary out)).
Proof.
  eexists. split; [reflexivity|].
  apply (rows_carry_taxonomy_names np_array_sample py_str_sample sample_exists
           sample_pickle "LSWMD.pkl"). reflexivity.
Defined.

Lemma padded_label_is_as_stripped_witness :
  process_record np_array_sample py_str_sample init_state
    (RTuple [("failureType", VStr "  Donut "); ("waferMap", sample_map)])
  = process_record np_array_sample py_str_sample init_state
      (RTuple [("failureType", VStr (strip "  Donut ")); ("waferMap", sample_map)]).
Proof.
  apply (padded_label_is_as_stripped np_array_sample py_str_sample init_state RTuple
           [("waferMap", sample_map)] "  Donut ").
  cbn. tauto.
Defined.

(** * Further properties of the ROI calculator *)

Local Open Scope nat_scope.

Lemma max0_nonneg (x : Q) : (inject_Z 0 <= max0 x)%Q.
Proof.
  unfold max0. destruct (Qle_bool x (inject_Z 0)) eqn:E.
  - apply Qle_refl.
  - destruct (Qlt_le_dec (inject_Z 0) x) as [H|H]; [now apply Qlt_le_weak|].
    apply Qle_bool_iff in H. congruence.
Qed.

Lemma calculate_labor_savings_nonneg (h : heap) (inputs : cval) (q : Q) :
  calculate_labor_savings h inputs = Ok q -> (inject_Z 0 <= q)%Q.
Proof.
  unfold calculate_labor_savings. intros H. exc_inv H. cbv zeta in H.
  exc_inv H. injection H as <-. apply max0_nonneg.
Qed.

Lemma calculate_quality_improvement_nonneg (h : heap) (inputs : cval) (q : Q) :
  calculate_quality_improvement h inputs = Ok q -> (inject_Z 0 <= q)%Q.
Proof.
  unfold calculate_quality_improvement. intros H. exc_inv H. cbv zeta in H.
  exc_inv H. injection H as <-. apply max0_nonneg.
Qed.

Lemma calculate_scrap_reduction_nonneg (h : heap) (inputs : cval) (q : Q) :
  calculate_scrap_reduction h inputs = Ok q -> (inject_Z 0 <= q)%Q.
Proof.
  unfold calculate_scrap_reduction. intros H. exc_inv H. cbv zeta in H.
  exc_inv H. injection H as <-. apply max0_nonneg.
Qed.

(** What a returned report is made of. *)
Lemma build_report_inv (h : heap) (inputs : nat) (r : Report) :
  build_report h inputs = Ok r ->
  calculate_labor_savings h (CRef inputs) = Ok (labor_savings r)
  /\ calculate_quality_improvement h (CRef inputs) = Ok (quality_savings r)
  /\ calculate_scrap_reduction h (CRef inputs) = Ok (scrap_savings r)
  /\ total_monthly r = (labor_savings r + quality_savings r + scrap_savings r)%Q
  /\ (payback_months r = None <-> Qle_bool (total_monthly r) (inject_Z 0) = true).
Proof.
  unfold build_report. intros H. exc_inv H. cbv zeta in H. exc_inv H.
  injection H as <-. cbn [labor_savings quality_savings scrap_savings total_monthly
                          payback_months].
  repeat (split; [reflexivity|]).
  destruct (Qle_bool (a + a0 + a1) (inject_Z 0)) eqn:Hle.
  - injection E4 as <-. split; reflexivity.
  - exc_inv E4. injection E4 as <-. split; discriminate.
Qed.

Lemma generate_report_inv (h h' : heap) (config : nat)
    (user_overrides : option (list (string * cval))) (r : Report) :
  generate_report h config user_overrides = (h', Ok r) ->
  exists inputs,
    validate_inputs h' inputs = Ok tt /\ build_report h' inputs = Ok r.
Proof.
  unfold generate_report.
  destruct (deepcopy _ _ _ _) as [[[h1 memo] [q|s| |inputs]]|]; try discriminate.
  destruct (merge_step h1 inputs user_overrides) as [h2 [[]|e]]; [|discriminate].
  intros [= <- H]. exists inputs.
  destruct (validate_inputs h2 inputs) as [[]|e]; cbn [exc_bind] in H; [|discriminate].
  split; [reflexivity|exact H].
Qed.

(** X11. A report that is returned has no negative figure: each of the
    three savings and their total are at least 0. *)
Theorem report_savings_are_not_negative (h h' : heap) (config : nat)
    (user_overrides : option (list (string * cval))) (r : Report) :
  generate_report h config user_overrides = (h', Ok r) ->
  (inject_Z 0 <= labor_savings r)%Q
  /\ (inject_Z 0 <= quality_savings r)%Q
  /\ (inject_Z 0 <= scrap_savings r)%Q
  /\ (inject_Z 0 <= total_monthly r)%Q.
Proof.
  intros Hrun. destruct (generate_report_inv _ _ _ _ _ Hrun) as (inputs & _ & Hr).
  destruct (build_report_inv _ _ _ Hr) as (Hl & Hq & Hs & Ht & _).
  apply calculate_labor_savings_nonneg in Hl.
  apply calculate_quality_improvement_nonneg in Hq.
  apply calculate_scrap_reduction_nonneg in Hs.
  repeat (split; [assumption|]). rewrite Ht.
  change (inject_Z 0) with 0%Q in *. lra.
Qed.

Lemma report_savings_are_not_negative_witness :
  exists h' r,
    generate_report sample_store sample_config (Some sample_overrides) = (h', Ok r)
    /\ (inject_Z 0 <= total_monthly r)%Q.
Proof.
  eexists _, _. split; [reflexivity|].
  eapply (report_savings_are_not_negative sample_store _ sample_config
            (Some sample_overrides)). reflexivity.
Defined.

(** ** [validate_inputs] *)

Lemma concat_nil_inv {A : Type} (ls : list (list A)) (l : list A) :
  concat ls = [] -> In l ls -> l = [].
Proof.
  induction ls as [|a ls IH]; cbn [concat In]; [tauto|].
  intros H [<-|Hin]; apply app_eq_nil in H as [Ha Hls]; [exact Ha|now apply IH].
Qed.

Lemma validate_inputs_unfold (h : heap) (inputs : nat) (top : dict) :
  h !! inputs = Some top ->
  validate_inputs h inputs
  = (let! missing := exc_map (check_key h top) required in
     match concat missing with
     | [] => Ok tt
     | _ :: _ => Raise ValueError
     end)%exc.
Proof. intros H. unfold validate_inputs, items_of. rewrite H. reflexivity. Qed.

Lemma check_key_present (h : heap) (top : dict) (key : string * string) :
  check_key h top key = Ok [] <-> field_present h top key.
Proof.
  unfold check_key, field_present, get_or_empty, items_of, dict_get. split.
  - destruct (assoc (fst key) top) as [[q|s| |l]|]; cbn [exc_bind]; try discriminate.
    destruct (h !! l) as [d|] eqn:Hd; cbn [exc_bind]; [|discriminate].
    destruct (assoc (snd key) d) as [v|] eqn:Hv; [|discriminate].
    intros H. exists l, d, v.
    split; [reflexivity|]. split; [exact Hd|]. split; [exact Hv|].
    intros ->. discriminate H.
  - intros (l & d & v & -> & Hd & Hv & Hne). rewrite Hd. cbn [exc_bind]. rewrite Hv.
    destruct v; congruence.
Qed.

Lemma exc_map_all_nil {A B : Type} (f : A -> Exc (list B)) (l : list A) :
  (forall x, In x l -> f x = Ok []) ->
  exists ms, exc_map f l = Ok ms /\ concat ms = [].
Proof.
  induction l as [|x l IH]; intros H; cbn [exc_map].
  - exists []. split; reflexivity.
  - rewrite (H x) by now left. cbn [exc_bind].
    destruct IH as (ms & -> & Hms); [intros y Hy; apply H; now right|].
    cbn [exc_bind]. exists ([] :: ms). split; [reflexivity|exact Hms].
Qed.

(** X12. [validate_inputs] accepts the inputs exactly when each of the
    twelve required keys is there: its section is a dictionary that
    holds the field with a value other than [None].  When the required
    sections that exist are dictionaries, inputs that are not accepted
    are rejected with [ValueError]. *)
Theorem validate_inputs_accepts_complete_inputs (h : heap) (inputs : nat) (top : dict) :
  h !! inputs = Some top ->
  (validate_inputs h inputs = Ok tt
   <-> forall key, In key required -> field_present h top key)
  /\ ((forall key, In key required -> exists d, get_or_empty h top (fst key) = Ok d) ->
      validate_inputs h inputs = Ok tt \/ validate_inputs h inputs = Raise ValueError).
Proof.
  intros Htop. rewrite (validate_inputs_unfold h inputs top Htop). split; [split|].
  - intros H key Hkey.
    destruct (exc_map (check_key h top) required) as [ms|e] eqn:Hms; cbn [exc_bind] in H;
      [|discriminate].
    destruct (concat ms) eqn:Hc; [|discriminate].
    destruct (exc_map_In_l _ _ _ _ Hms Hkey) as (m & Hm & Hcheck).
    apply check_key_present. rewrite Hcheck. f_equal. eapply concat_nil_inv; eassumption.
  - intros H. destruct (exc_map_all_nil (check_key h top) required) as (ms & Hms & Hc).
    + intros key Hkey. apply check_key_present, H, Hkey.
    + rewrite Hms. cbn [exc_bind]. now rewrite Hc.
  - intros H. destruct (exc_map_ok (check_key h top) required) as (ms & -> & _).
    + apply List.Forall_forall. intros key Hkey. destruct (H key Hkey) as [d Hd].
      unfold check_key. rewrite Hd. cbn [exc_bind]. eauto.
    + cbn [exc_bind]. destruct (concat ms); [now left|now right].
Qed.

Lemma validate_inputs_accepts_complete_inputs_witness :
  validate_inputs sample_store sample_config = Ok tt
  /\ field_present sample_store
       [("factory", CRef 0); ("manual_inspection", CRef 1);
        ("ai_performance", CRef 2); ("costs", CRef 3); ("formulas", CRef 4)]
       ("costs", "wafer_cost_inr").
Proof.
  split; [reflexivity|].
  apply (proj1 (proj1 (validate_inputs_accepts_complete_inputs sample_store
                        sample_config _ eq_refl))).
  - reflexivity.
  - unfold required. cbn [In]. tauto.
Defined.

(** ** What an override does to a section *)

Lemma assoc_dict_set (k k' : string) (v : cval) (d : dict) :
  assoc k' (dict_set k v d) = if String.eqb k' k then Some v else assoc k' d.
Proof.
  induction d as [|[k1 v1] d IH]; cbn [dict_set assoc]; [reflexivity|].
  destruct (String.eqb_spec k k1) as [->|Hne]; cbn [assoc].
  - destruct (String.eqb k' k1); reflexivity.
  - rewrite IH. destruct (String.eqb_spec k' k1) as [->|Hne'].
    + destruct (String.eqb_spec k1 k); [congruence|reflexivity].
    + reflexivity.
Qed.

Lemma assoc_not_in {V : Type} (k : string) (items : list (string * V)) :
  ~ In k (map fst items) -> assoc k items = None.
Proof.
  induction items as [|[k1 v1] items IH]; cbn [map fst In assoc]; [reflexivity|].
  intros H. destruct (String.eqb_spec k k1) as [->|Hne]; [tauto|]. apply IH. tauto.
Qed.

Lemma assoc_dict_update (k : string) (items d : dict) :
  List.NoDup (map fst items) ->
  assoc k (dict_update d items)
  = match assoc k items with
    | Some v => Some v
    | None => assoc k d
    end.
Proof.
  unfold dict_update. revert d.
  induction items as [|[k1 v1] items IH]; intros d Hnd; cbn [fold_left assoc fst snd];
    [reflexivity|].
  apply List.NoDup_cons_iff in Hnd as [Hnot Hnd]. rewrite IH by exact Hnd.
  rewrite assoc_dict_set. destruct (String.eqb_spec k k1) as [->|Hne]; [|reflexivity].
  now rewrite (assoc_not_in k1 items Hnot).
Qed.

(** X16. An override for a section of the inputs replaces the fields it
    names, keeps the other fields of the section, and writes to no
    other dictionary. *)
Theorem override_replaces_named_fields (h : heap) (inputs : nat) (top : dict)
    (section : string) (ls ld : nat) (target items : dict) :
  h !! inputs = Some top ->
  assoc section top = Some (CRef ls) ->
  h !! ls = Some target ->
  h !! ld = Some items ->
  List.NoDup (map fst items) ->
  exists h',
    update_section h inputs section (CRef ld) = (h', Ok tt)
    /\ (forall k,
          getitem h' (CRef ls) k
          = match assoc k items with
            | Some v => Ok v
            | None => getitem h (CRef ls) k
            end)
    /\ forall l, l <> ls -> h' !! l = h !! l.
Proof.
  intros Htop Hsec Hls Hld Hnd.
  exists (<[ls := dict_update target items]> h).
  unfold update_section. rewrite Htop, Hsec, Hls, Hld. split; [reflexivity|]. split.
  - intros k. unfold getitem, items_of.
    rewrite list_lookup_insert_eq by (eapply lookup_lt_Some, Hls).
    rewrite Hls. cbn [exc_bind]. rewrite assoc_dict_update by exact Hnd.
    destruct (assoc k items); reflexivity.
  - intros l Hl. apply list_lookup_insert_ne. congruence.
Qed.

Lemma override_replaces_named_fields_witness :
  exists h',
    update_section sample_store sample_config "costs" (CRef 7) = (h', Ok tt)
    /\ getitem h' (CRef 3) "wafer_cost_inr" = Ok (CNum (inject_Z 6000))
    /\ getitem h' (CRef 3) "monthly_compute_cost_inr" = Ok (CNum (inject_Z 50000)).
Proof.
  destruct (override_replaces_named_fields sample_store sample_config _ "costs" 3 7 _ _
              eq_refl eq_refl eq_refl eq_refl) as (h' & Hrun & Hget & _).
  { repeat constructor; cbn; intuition discriminate. }
  exists h'. split; [exact Hrun|]. split; rewrite Hget; reflexivity.
Defined.

(** ** The copy of a two-level configuration *)

Lemma deepcopy_scalar (fuel : nat) (h : heap) (memo : list (nat * nat)) (v : cval) :
  is_scalar_cval v = true -> deepcopy fuel h memo v = Some (h, memo, v).
Proof. destruct v; try discriminate; destruct fuel; reflexivity. Qed.

Lemma deepcopy_ref (fuel : nat) (h : heap) (memo : list (nat * nat)) (l : nat) :
  deepcopy (S fuel) h memo (CRef l)
  = match memo_get l memo with
    | Some y => Some (h, memo, CRef y)
    | None =>
        match h !! l with
        | None => None
        | Some x =>
            match copy_items (deepcopy fuel) (h ++ [[]]) ((l, length h) :: memo) x with
            | None => None
            | Some (h', memo', items) =>
                Some (<[length h := items]> h', memo', CRef (length h))
            end
        end
    end.
Proof. reflexivity. Qed.

Lemma copy_items_scalars (fuel : nat) (h : heap) (memo : list (nat * nat)) (d : dict) :
  Forall (fun kv => is_scalar_cval (snd kv) = true) d ->
  copy_items (deepcopy fuel) h memo d = Some (h, memo, d).
Proof.
  induction 1 as [|[k v] d Hv _ IH]; cbn [copy_items]; [reflexivity|].
  cbn [snd] in Hv. rewrite deepcopy_scalar by exact Hv. now rewrite IH.
Qed.

Lemma memo_two_level_extend (h0 : heap) (cfg : nat) (h h' : heap)
    (memo : list (nat * nat)) :
  memo_two_level h0 cfg h memo ->
  length h <= length h' ->
  (forall j, j < length h -> h' !! j = h !! j) ->
  memo_two_level h0 cfg h' memo.
Proof.
  intros Hmemo Hlen Hpre l y Hy.
  destruct (Hmemo l y Hy) as [H|[Hb Hl]]; [now left|right].
  split; [lia|]. rewrite Hpre by lia. exact Hl.
Qed.

Lemma value_copied_extend (h0 h h' : heap) (v v' : cval) :
  value_copied h0 h v v' ->
  length h <= length h' ->
  (forall j, length h0 < j < length h -> h' !! j = h !! j) ->
  value_copied h0 h' v v'.
Proof.
  intros Hv Hlen Hpre. destruct v as [q|s| |l]; cbn in *; try exact Hv.
  destruct Hv as (y & -> & Hb & Hy). exists y. split; [reflexivity|].
  split; [lia|]. rewrite Hpre by lia. exact Hy.
Qed.

Section CopySections.

Variable h0 : heap.
Variable cfg : nat.

Lemma copy_sections (fuel : nat) (items : dict) :
  0 < fuel ->
  forall hc memo,
    length h0 < length hc ->
    (forall j, j < length h0 -> hc !! j = h0 !! j) ->
    memo_two_level h0 cfg hc memo ->
    two_level h0 cfg items ->
    exists h' memo' items',
      copy_items (deepcopy fuel) hc memo items = Some (h', memo', items')
      /\ length hc <= length h'
      /\ (forall j, j < length hc -> h' !! j = hc !! j)
      /\ items_copied h0 h' items items'.
Proof using Type.
  intros Hfuel. destruct fuel as [|fuel]; [lia|]. clear Hfuel.
  induction items as [|[k v] rest IH]; intros hc memo Hlen Hold Hmemo Hflat.
  - exists hc, memo, []. cbn [copy_items]. repeat split; auto. constructor.
  - assert (Hrest : two_level h0 cfg rest).
    { intros k' l' Hin. apply (Hflat k' l'). now right. }
    destruct (is_scalar_cval v) eqn:Hscalar.
    + cbn [copy_items]. rewrite deepcopy_scalar by exact Hscalar. cbv beta iota.
      destruct (IH hc memo Hlen Hold Hmemo Hrest) as (h' & memo' & rest' & E & Hl & Hp & Hc).
      exists h', memo', ((k, v) :: rest'). rewrite E. repeat split; auto.
      constructor; [|exact Hc]. split; [reflexivity|].
      destruct v; try discriminate; reflexivity.
    + destruct v as [q|s| |l]; try discriminate.
      destruct (Hflat k l (or_introl eq_refl)) as (Hne & d & Hd & Hd_scalar).
      assert (Hl0 : l < length h0) by (eapply lookup_lt_Some, Hd).
      cbn [copy_items]. rewrite deepcopy_ref.
      destruct (memo_get l memo) as [y|] eqn:Hy.
      * destruct (Hmemo l y Hy) as [[? _]|[Hb Hyl]]; [contradiction|].
        cbv beta iota.
        destruct (IH hc memo Hlen Hold Hmemo Hrest)
          as (h' & memo' & rest' & E & Hl & Hp & Hc).
        exists h', memo', ((k, CRef y) :: rest'). rewrite E. repeat split; auto.
        constructor; [|exact Hc]. split; [reflexivity|]. cbn.
        exists y. split; [reflexivity|]. split; [lia|]. rewrite Hp by lia. exact Hyl.
      * rewrite (Hold l Hl0), Hd. rewrite copy_items_scalars by exact Hd_scalar.
        cbv beta iota zeta.
        set (h1 := <[length hc := d]> (hc ++ [[]])).
        assert (Hlen1 : length h1 = S (length hc)).
        { subst h1. rewrite length_insert, length_app. cbn [length]. lia. }
        assert (Hpre1 : forall j, j < length hc -> h1 !! j = hc !! j).
        { intros j Hj. subst h1. rewrite list_lookup_insert_ne by lia.
          now apply lookup_app_l. }
        assert (Hnew : h1 !! length hc = Some d).
        { subst h1. apply list_lookup_insert_eq. rewrite length_app. cbn [length]. lia. }
        destruct (IH h1 ((l, length hc) :: memo))
          as (h' & memo' & rest' & E & Hl & Hp & Hc).
        { lia. }
        { intros j Hj. rewrite Hpre1 by lia. apply Hold, Hj. }
        { intros l' y'. cbn [memo_get]. destruct (l' =? l) eqn:E.
          - apply Nat.eqb_eq in E. subst l'. intros [= <-]. right.
            split; [lia|]. now rewrite Hnew, Hd.
          - intros Hy'. eapply memo_two_level_extend; eauto. lia. }
        { exact Hrest. }
        exists h', memo', ((k, CRef (length hc)) :: rest'). rewrite E. repeat split.
        -- lia.
        -- intros j Hj. rewrite Hp by lia. apply Hpre1, Hj.
        -- constructor; [|exact Hc]. split; [reflexivity|]. cbn.
           exists (length hc). split; [reflexivity|]. split; [lia|].
           rewrite Hp by lia. now rewrite Hnew, Hd.
Qed.

(** The copy that [generate_report] makes of a two-level configuration. *)
Lemma deepcopy_two_level (top : dict) :
  h0 !! cfg = Some top ->
  two_level h0 cfg top ->
  exists h1 memo top',
    deepcopy (S (length h0)) h0 [] (CRef cfg) = Some (h1, memo, CRef (length h0))
    /\ h1 !! length h0 = Some top'
    /\ items_copied h0 h1 top top'.
Proof using Type.
  intros Htop Hflat. rewrite deepcopy_ref. cbn [memo_get]. rewrite Htop.
  assert (Hcfg : cfg < length h0) by (eapply lookup_lt_Some, Htop).
  destruct (copy_sections (length h0) top ltac:(lia) (h0 ++ [[]]) [(cfg, length h0)])
    as (h2 & memo2 & top' & E & Hl & Hp & Hc).
  - rewrite length_app. cbn [length]. lia.
  - intros j Hj. now apply lookup_app_l.
  - intros l y. cbn [memo_get]. destruct (l =? cfg) eqn:E; [|discriminate].
    apply Nat.eqb_eq in E. intros [= <-]. now left.
  - exact Hflat.
  - rewrite length_app in Hl. cbn [length] in Hl.
    exists (<[length h0 := top']> h2), memo2, top'. rewrite E.
    split; [reflexivity|]. split.
    + apply list_lookup_insert_eq. lia.
    + eapply Forall2_impl; [exact Hc|]. intros [k v] [k' v'] [Hk Hv].
      split; [exact Hk|]. cbn [snd] in *.
      eapply value_copied_extend; [exact Hv|rewrite length_insert; lia|].
      intros j Hj. apply list_lookup_insert_ne. lia.
Qed.

End CopySections.

Lemma exc_map_ext {A B : Type} (f g : A -> Exc B) (l : list A) :
  (forall x, f x = g x) -> exc_map f l = exc_map g l.
Proof.
  intros H. induction l as [|x l IH]; cbn [exc_map]; [reflexivity|].
  now rewrite H, IH.
Qed.

Lemma assoc_items_copied (h0 h1 : heap) (items items' : dict) (k : string) :
  items_copied h0 h1 items items' ->
  match assoc k items, assoc k items' with
  | None, None => True
  | Some v, Some v' => value_copied h0 h1 v v'
  | _, _ => False
  end.
Proof.
  induction 1 as [|[k1 v1] [k2 v2] items items' [Hk Hv] _ IH]; cbn [assoc];
    [exact I|].
  cbn [fst snd] in Hk, Hv. subst k2. destruct (String.eqb k k1); [exact Hv|exact IH].
Qed.

Section CopyReads.

(** [top'] at [li] in [h1] is a copy of [top] at [cfg] in [h0]. *)
Variables h0 h1 : heap.
Variables cfg li : nat.
Variables top top' : dict.
Hypothesis top_at : h0 !! cfg = Some top.
Hypothesis copy_at : h1 !! li = Some top'.
Hypothesis copied : items_copied h0 h1 top top'.

Lemma assoc_copied (k : string) :
  match assoc k top, assoc k top' with
  | None, None => True
  | Some v, Some v' => value_copied h0 h1 v v'
  | _, _ => False
  end.
Proof using copied. apply assoc_items_copied, copied. Qed.

Lemma getitem_value_copied (v v' : cval) (key : string) :
  value_copied h0 h1 v v' -> getitem h1 v' key = getitem h0 v key.
Proof using Type.
  destruct v as [q|s| |l]; cbn [value_copied]; try (intros ->; reflexivity).
  intros (y & -> & _ & Hy). unfold getitem, items_of. now rewrite Hy.
Qed.

Lemma items_value_copied (v v' : cval) :
  value_copied h0 h1 v v' ->
  match v' with CRef l => items_of h1 l | _ => Raise AttributeError end
  = match v with CRef l => items_of h0 l | _ => Raise AttributeError end.
Proof using Type.
  destruct v as [q|s| |l]; cbn [value_copied]; try (intros ->; reflexivity).
  intros (y & -> & _ & Hy). unfold items_of. now rewrite Hy.
Qed.

Lemma get_or_empty_copied (sec : string) :
  get_or_empty h1 top' sec = get_or_empty h0 top sec.
Proof using copied.
  unfold get_or_empty. pose proof (assoc_copied sec) as H.
  destruct (assoc sec top) as [v|], (assoc sec top') as [v'|]; try contradiction;
    [|reflexivity].
  destruct v as [q|s| |l]; cbn [value_copied] in H; try (subst v'; reflexivity).
  destruct H as (y & -> & _ & Hy). unfold items_of. now rewrite Hy.
Qed.

Lemma getitem_copied (sec : string) :
  (getitem h0 (CRef cfg) sec = Raise KeyError
   /\ getitem h1 (CRef li) sec = Raise KeyError)
  \/ exists v v',
       getitem h0 (CRef cfg) sec = Ok v
       /\ getitem h1 (CRef li) sec = Ok v'
       /\ value_copied h0 h1 v v'.
Proof using top_at copy_at copied.
  unfold getitem, items_of. rewrite top_at, copy_at. cbn [exc_bind].
  pose proof (assoc_copied sec) as H.
  destruct (assoc sec top) as [v|], (assoc sec top') as [v'|]; try contradiction.
  - right. eauto.
  - left. split; reflexivity.
Qed.

Lemma wafers_month_copied (v v' : cval) :
  value_copied h0 h1 v v' -> wafers_month h1 v' = wafers_month h0 v.
Proof using Type.
  intros H. unfold wafers_month. now rewrite !(getitem_value_copied v v') by exact H.
Qed.

Lemma num_at_copied (v v' : cval) (key : string) :
  value_copied h0 h1 v v' -> num_at h1 v' key = num_at h0 v key.
Proof using Type.
  intros H. unfold num_at. now rewrite (getitem_value_copied v v') by exact H.
Qed.

(** Reads one section on both sides of an equation between a
    computation on the copy and the same computation on the original. *)
Ltac read_section sec :=
  let v := fresh "v" in
  let v' := fresh "v'" in
  let Ha := fresh "Ha" in
  let Hb := fresh "Hb" in
  let Hv := fresh "Hv" in
  destruct (getitem_copied sec) as [[Ha Hb]|(v & v' & Ha & Hb & Hv)];
  rewrite Ha, Hb; cbn [exc_bind]; [reflexivity|];
  rewrite ?(wafers_month_copied v v' Hv), ?(num_at_copied v v' _ Hv).

Lemma calculate_labor_savings_copied :
  calculate_labor_savings h1 (CRef li) = calculate_labor_savings h0 (CRef cfg).
Proof using top_at copy_at copied.
  unfold calculate_labor_savings.
  read_section "factory". read_section "manual_inspection". reflexivity.
Qed.

Lemma calculate_quality_improvement_copied :
  calculate_quality_improvement h1 (CRef li)
  = calculate_quality_improvement h0 (CRef cfg).
Proof using top_at copy_at copied.
  unfold calculate_quality_improvement.
  read_section "factory". read_section "manual_inspection".
  read_section "ai_performance". read_section "costs". reflexivity.
Qed.

Lemma calculate_scrap_reduction_copied :
  calculate_scrap_reduction h1 (CRef li) = calculate_scrap_reduction h0 (CRef cfg).
Proof using top_at copy_at copied.
  unfold calculate_scrap_reduction.
  read_section "factory". read_section "manual_inspection".
  read_section "ai_performance". read_section "costs". reflexivity.
Qed.

Lemma validate_inputs_copied : validate_inputs h1 li = validate_inputs h0 cfg.
Proof using top_at copy_at copied.
  unfold validate_inputs, items_of. rewrite top_at, copy_at. cbn [exc_bind].
  rewrite (exc_map_ext _ (fun key =>
             (let! sec := get_or_empty h0 top (fst key) in
              Ok (match dict_get sec (snd key) CNone with
                  | CNone => [key]
                  | _ => []
                  end))%exc)); [reflexivity|].
  intros key. now rewrite get_or_empty_copied.
Qed.

Lemma build_report_copied : build_report h1 li = build_report h0 cfg.
Proof using top_at copy_at copied.
  unfold build_report.
  rewrite calculate_labor_savings_copied, calculate_quality_improvement_copied,
    calculate_scrap_reduction_copied.
  destruct (calculate_labor_savings h0 (CRef cfg)) as [labor|e]; cbn [exc_bind];
    [|reflexivity].
  destruct (calculate_quality_improvement h0 (CRef cfg)) as [quality|e]; cbn [exc_bind];
    [|reflexivity].
  destruct (calculate_scrap_reduction h0 (CRef cfg)) as [scrap|e]; cbn [exc_bind];
    [|reflexivity].
  cbv zeta.
  destruct (getitem_copied "costs") as [[Ha Hb]|(v & v' & Ha & Hb & Hv)];
    rewrite Ha, Hb; cbn [exc_bind]; [reflexivity|].
  rewrite (items_value_copied v v' Hv).
  unfold items_of at 2 4. rewrite top_at, copy_at.
  destruct (match v with CRef l => items_of h0 l | _ => Raise AttributeError end)
    as [costs_items|e]; cbn [exc_bind]; [|reflexivity].
  destruct (if Qle_bool _ _ then _ else _) as [payback|e]; cbn [exc_bind];
    [|reflexivity].
  now rewrite get_or_empty_copied.
Qed.

End CopyReads.

(** X15. Without overrides the report is the one of the configuration:
    for a configuration of two levels (sections that are dictionaries
    of scalars), [generate_report()] returns or raises what validation
    and the calculations give on [self.config] itself. *)
Theorem report_without_overrides_is_of_the_configuration (h : heap) (config : nat)
    (top : dict) :
  h !! config = Some top ->
  two_level h config top ->
  snd (generate_report h config None)
  = (let! _ := validate_inputs h config in build_report h config)%exc.
Proof.
  intros Htop Hflat.
  destruct (deepcopy_two_level h config top Htop Hflat)
    as (h1 & memo & top' & Hcopy & Hli & Hcopied).
  unfold generate_report. rewrite Hcopy. cbn [merge_step snd].
  rewrite (validate_inputs_copied h h1 config (length h) top top' Htop Hli Hcopied).
  rewrite (build_report_copied h h1 config (length h) top top' Htop Hli Hcopied).
  reflexivity.
Qed.

Lemma report_without_overrides_is_of_the_configuration_witness :
  snd (generate_report sample_store sample_config None)
  = (let! _ := validate_inputs sample_store sample_config in
     build_report sample_store sample_config)%exc.
Proof.
  apply (report_without_overrides_is_of_the_configuration sample_store sample_config
           [("factory", CRef 0); ("manual_inspection", CRef 1);
            ("ai_performance", CRef 2); ("costs", CRef 3); ("formulas", CRef 4)]).
  - reflexivity.
  - intros k l Hin. cbn [In] in Hin.
    repeat (destruct Hin as [[= <- <-]|Hin];
            [split; [discriminate|eexists; split; [reflexivity|repeat constructor]]|]).
    destruct Hin.
Defined.

(** ** Validation before the calculations *)

Section Validated.

Variable h : heap.
Variable inputs : nat.
Variable top : dict.
Hypothesis top_at : h !! inputs = Some top.
Hypothesis validated : validate_inputs h inputs = Ok tt.

Lemma validated_present (key : string * string) :
  In key required -> field_present h top key.
Proof using top_at validated.
  intros Hkey. pose proof validated as H.
  rewrite (validate_inputs_unfold h inputs top top_at) in H.
  destruct (exc_map (check_key h top) required) as [ms|e] eqn:Hms; cbn [exc_bind] in H;
    [|discriminate].
  destruct (concat ms) eqn:Hc; [|discriminate].
  destruct (exc_map_In_l _ _ _ _ Hms Hkey) as (m & Hm & Hcheck).
  apply check_key_present. rewrite Hcheck. f_equal. eapply concat_nil_inv; eassumption.
Qed.

Lemma validated_section (sec fld : string) :
  In (sec, fld) required -> exists m, getitem h (CRef inputs) sec = Ok m.
Proof using top_at validated.
  intros Hkey. destruct (validated_present _ Hkey) as (l & d & v & Hsec & _).
  cbn [fst] in Hsec. unfold getitem, items_of. rewrite top_at. cbn [exc_bind].
  rewrite Hsec. eauto.
Qed.

Lemma validated_field (sec fld : string) (m : cval) :
  In (sec, fld) required ->
  getitem h (CRef inputs) sec = Ok m ->
  exists v, getitem h m fld = Ok v.
Proof using top_at validated.
  intros Hkey Hm. destruct (validated_present _ Hkey) as (l & d & v & Hsec & Hd & Hv & _).
  cbn [fst snd] in *.
  unfold getitem, items_of in Hm. rewrite top_at in Hm. cbn [exc_bind] in Hm.
  rewrite Hsec in Hm. injection Hm as <-.
  exists v. unfold getitem, items_of. rewrite Hd. cbn [exc_bind]. now rewrite Hv.
Qed.

(** Reads a required section, then a required field of it; a field
    that is not a number ends the calculation with [TypeError]. *)
Ltac required_section sec fld m H :=
  destruct (validated_section sec fld) as [m H];
  [unfold required; cbn [In]; tauto|]; rewrite ?H; cbn [exc_bind].

Ltac required_field sec fld m H :=
  let v := fresh "v" in
  let Hv := fresh "Hv" in
  destruct (validated_field sec fld m) as [v Hv];
  [unfold required; cbn [In]; tauto|exact H|];
  rewrite ?Hv; cbn [exc_bind];
  destruct v; cbn [num exc_bind]; try discriminate.

(** X17. Validation covers every key the calculations read: on inputs
    that [validate_inputs] accepts, none of the three calculations
    raises [KeyError]. *)
Theorem validated_inputs_have_every_key_read :
  calculate_labor_savings h (CRef inputs) <> Raise KeyError
  /\ calculate_quality_improvement h (CRef inputs) <> Raise KeyError
  /\ calculate_scrap_reduction h (CRef inputs) <> Raise KeyError.
Proof using top_at validated.
  split; [|split].
  - unfold calculate_labor_savings, wafers_month, num_at.
    required_section "factory" "wafers_per_day" f Hf.
    required_section "manual_inspection" "time_per_wafer_minutes" m Hm.
    required_field "factory" "wafers_per_day" f Hf.
    required_field "factory" "operating_days_per_month" f Hf.
    required_field "manual_inspection" "time_per_wafer_minutes" m Hm.
    required_field "manual_inspection" "inspector_hourly_wage_inr" m Hm.
  - unfold calculate_quality_improvement, wafers_month, num_at.
    required_section "factory" "wafers_per_day" f Hf.
    required_section "manual_inspection" "false_negative_rate" m Hm.
    required_section "ai_performance" "false_negative_rate" ai Hai.
    required_section "costs" "wafer_cost_inr" c Hc.
    required_field "factory" "wafers_per_day" f Hf.
    required_field "factory" "operating_days_per_month" f Hf.
    required_field "manual_inspection" "false_negative_rate" m Hm.
    required_field "ai_performance" "false_negative_rate" ai Hai.
    required_field "costs" "wafer_cost_inr" c Hc.
    required_field "costs" "defective_wafer_downstream_cost_multiplier" c Hc.
  - unfold calculate_scrap_reduction, wafers_month, num_at.
    required_section "factory" "wafers_per_day" f Hf.
    required_section "manual_inspection" "false_positive_rate" m Hm.
    required_section "ai_performance" "false_positive_rate" ai Hai.
    required_section "costs" "wafer_cost_inr" c Hc.
    required_field "factory" "wafers_per_day" f Hf.
    required_field "factory" "operating_days_per_month" f Hf.
    required_field "manual_inspection" "false_positive_rate" m Hm.
    required_field "ai_performance" "false_positive_rate" ai Hai.
    required_field "costs" "wafer_cost_inr" c Hc.
Qed.

End Validated.

Lemma validated_inputs_have_every_key_read_witness :
  calculate_labor_savings sample_store (CRef sample_config) <> Raise KeyError.
Proof.
  apply (validated_inputs_have_every_key_read sample_store sample_config
           [("factory", CRef 0); ("manual_inspection", CRef 1);
            ("ai_performance", CRef 2); ("costs", CRef 3); ("formulas", CRef 4)]).
  - reflexivity.
  - reflexivity.
Defined.
